(** * Verification of the cv-builder resume post-processor and batch runner

    A shallow embedding of [src/resume_tailor.py] (post-processing steps,
    error handling of [tailor_resume]) and [src/main.py] (model gateway,
    per-row batch unit, semaphore-gated fan-out).

    Text is modelled as Rocq [string] (8-bit characters).  The model covers
    ASCII text: Python's [str.lower], [isupper], [isspace] and regex [\w]
    are written out for ASCII; bytes >= 128 count as non-word, non-space,
    uncased characters.  JSON numbers are integers. *)

From Stdlib Require Import String Ascii List ZArith Bool Lia.
Import ListNotations.
Open Scope string_scope.
Open Scope list_scope.

Set Warnings "-register-all".

Infix "^^" := String.append (at level 60, right associativity).

(** Python's [try]: [None] is a raised exception. *)
Notation "'let*' x ':=' e 'in' b" :=
  (match e with Some x => b | None => None end)
  (at level 200, x name, e at level 100, b at level 200).

(* ------------------------------------------------------------------ *)
(** ** Python string operations (ASCII) *)
Module PyStr.
Local Open Scope nat_scope.

Definition is_upper (c : ascii) : bool :=
  let n := nat_of_ascii c in (65 <=? n) && (n <=? 90).
Definition is_lower (c : ascii) : bool :=
  let n := nat_of_ascii c in (97 <=? n) && (n <=? 122).
Definition is_digit (c : ascii) : bool :=
  let n := nat_of_ascii c in (48 <=? n) && (n <=? 57).
Definition to_lower (c : ascii) : ascii :=
  if is_upper c then ascii_of_nat (nat_of_ascii c + 32) else c.
Definition to_upper (c : ascii) : ascii :=
  if is_lower c then ascii_of_nat (nat_of_ascii c - 32) else c.

(** Regex [\w] on ASCII: letters, digits and underscore. *)
Definition is_word (c : ascii) : bool :=
  is_upper c || is_lower c || is_digit c || Ascii.eqb c "_"%char.

(** [str.isspace] on ASCII: \t \n \v \f \r, \x1c-\x1f and space. *)
Definition is_space (c : ascii) : bool :=
  let n := nat_of_ascii c in
  ((9 <=? n) && (n <=? 13)) || ((28 <=? n) && (n <=? 32)).

Fixpoint lower (s : string) : string :=
  match s with
  | EmptyString => EmptyString
  | String c r => String (to_lower c) (lower r)
  end.

Fixpoint starts_with (p s : string) : bool :=
  match p, s with
  | EmptyString, _ => true
  | String a p', String b s' => Ascii.eqb a b && starts_with p' s'
  | String _ _, EmptyString => false
  end.

(** Python's [needle in hay] on strings. *)
Fixpoint contains (needle hay : string) : bool :=
  starts_with needle hay ||
  match hay with
  | EmptyString => false
  | String _ r => contains needle r
  end.

Fixpoint drop (n : nat) (s : string) : string :=
  match n, s with
  | O, _ => s
  | S _, EmptyString => EmptyString
  | S k, String _ r => drop k r
  end.

(** [s.replace(old, new)] for a non-empty [old]: every non-overlapping
    occurrence, left to right.  [fuel] bounds the scan. *)
Fixpoint replace_go (fuel : nat) (old new s : string) : string :=
  match fuel with
  | O => s
  | S f =>
      match s with
      | EmptyString => EmptyString
      | String c r =>
          if starts_with old s then new ^^ replace_go f old new (drop (String.length old) s)
          else String c (replace_go f old new r)
      end
  end.
Definition replace_all (old new s : string) : string :=
  replace_go (S (String.length s)) old new s.

Fixpoint lstrip_by (p : ascii -> bool) (s : string) : string :=
  match s with
  | EmptyString => EmptyString
  | String c r => if p c then lstrip_by p r else s
  end.
Fixpoint rev_str (s : string) : string :=
  match s with
  | EmptyString => EmptyString
  | String c r => rev_str r ^^ String c EmptyString
  end.
Definition strip_by (p : ascii -> bool) (s : string) : string :=
  rev_str (lstrip_by p (rev_str (lstrip_by p s))).
(** [s.strip()] *)
Definition strip (s : string) : string := strip_by is_space s.
Fixpoint in_chars (c : ascii) (cs : string) : bool :=
  match cs with
  | EmptyString => false
  | String d r => Ascii.eqb c d || in_chars c r
  end.
(** [s.strip(chars)] *)
Definition strip_chars (cs s : string) : string := strip_by (fun c => in_chars c cs) s.

(** [s.split()]: maximal runs of non-whitespace. *)
Fixpoint split_go (cur : string) (s : string) : list string :=
  match s with
  | EmptyString => match cur with EmptyString => [] | _ => [rev_str cur] end
  | String c r =>
      if is_space c then
        match cur with EmptyString => split_go EmptyString r
                  | _ => rev_str cur :: split_go EmptyString r end
      else split_go (String c cur) r
  end.
Definition split_ws (s : string) : list string := split_go EmptyString s.

(** [' '.join(ws)] *)
Fixpoint join_sp (ws : list string) : string :=
  match ws with
  | [] => EmptyString
  | [w] => w
  | w :: r => w ^^ " " ^^ join_sp r
  end.

(** [s.capitalize()] *)
Definition capitalize (s : string) : string :=
  match s with
  | EmptyString => EmptyString
  | String c r => String (to_upper c) (lower r)
  end.

(** [s[0].isupper()] for a non-empty [s] ([False] for the empty string,
    guarded by [word and ...] in the source). *)
Definition first_upper (s : string) : bool :=
  match s with EmptyString => false | String c _ => is_upper c end.

(** [len(s.split(","))] *)
Fixpoint count_char (c : ascii) (s : string) : nat :=
  match s with
  | EmptyString => 0
  | String d r => (if Ascii.eqb c d then 1 else 0) + count_char c r
  end.
Definition comma_parts (s : string) : nat := S (count_char ","%char s).

End PyStr.
Import PyStr.

(* ------------------------------------------------------------------ *)
(** ** JSON values as Python holds them after [json.loads] *)
Module Json.

Inductive json : Type :=
| JNull
| JBool (b : bool)
| JNum (z : Z)
| JStr (s : string)
| JArr (l : list json)
| JObj (d : list (string * json)).

(** Dict lookup: keys of a parsed object are unique. *)
Fixpoint lookup (k : string) (d : list (string * json)) : option json :=
  match d with
  | [] => None
  | (k', v) :: r => if String.eqb k k' then Some v else lookup k r
  end.

(** [d[k] = v]: an existing key keeps its place, a new one goes last. *)
Fixpoint set_key (k : string) (v : json) (d : list (string * json)) : list (string * json) :=
  match d with
  | [] => [(k, v)]
  | (k', v') :: r => if String.eqb k k' then (k', v) :: r else (k', v') :: set_key k v r
  end.

(** [del d[k]] *)
Fixpoint del_key (k : string) (d : list (string * json)) : list (string * json) :=
  match d with
  | [] => []
  | (k', v') :: r => if String.eqb k k' then r else (k', v') :: del_key k r
  end.

(** Python truthiness. *)
Definition truthy (v : json) : bool :=
  match v with
  | JNull => false
  | JBool b => b
  | JNum z => negb (Z.eqb z 0)
  | JStr s => negb (String.eqb s EmptyString)
  | JArr l => negb (Nat.eqb (length l) 0)
  | JObj d => negb (Nat.eqb (length d) 0)
  end.

(** Python [==] on JSON values: [True == 1], dicts compare as sets of
    items. *)
Fixpoint py_eq (a b : json) : bool :=
  match a, b with
  | JNull, JNull => true
  | JBool x, JBool y => Bool.eqb x y
  | JBool x, JNum z => Z.eqb z (if x then 1 else 0)
  | JNum z, JBool x => Z.eqb z (if x then 1 else 0)
  | JNum x, JNum y => Z.eqb x y
  | JStr x, JStr y => String.eqb x y
  | JArr l1, JArr l2 =>
      (fix go (l1 l2 : list json) : bool :=
         match l1, l2 with
         | [], [] => true
         | x :: r1, y :: r2 => py_eq x y && go r1 r2
         | _, _ => false
         end) l1 l2
  | JObj d1, JObj d2 =>
      Nat.eqb (length d1) (length d2) &&
      (fix go (d : list (string * json)) : bool :=
         match d with
         | [] => true
         | (k, v) :: r =>
             match lookup k d2 with
             | Some v' => py_eq v v'
             | None => false
             end && go r
         end) d1
  | _, _ => false
  end.

(** [key in v]: dict membership, substring test on a string, element test
    on a list; any other value raises [TypeError]. *)
Definition py_in (k : string) (v : json) : option bool :=
  match v with
  | JObj d => Some (match lookup k d with Some _ => true | None => false end)
  | JStr s => Some (contains k s)
  | JArr l => Some (existsb (py_eq (JStr k)) l)
  | _ => None
  end.

(** [v[key]]: only a dict holding [key] answers. *)
Definition py_get (k : string) (v : json) : option json :=
  match v with
  | JObj d => lookup k d
  | _ => None
  end.

(** [v[key] = x] *)
Definition py_set (k : string) (x : json) (v : json) : option json :=
  match v with
  | JObj d => Some (JObj (set_key k x d))
  | _ => None
  end.

(** [v.get(key, default)]: only dicts have [get]. *)
Definition py_get_default (k : string) (dflt : json) (v : json) : option json :=
  match v with
  | JObj d => Some (match lookup k d with Some x => x | None => dflt end)
  | _ => None
  end.

(** Python's [for] over a list with an effect per element. *)
Fixpoint traverse {A B} (f : A -> option B) (l : list A) : option (list B) :=
  match l with
  | [] => Some []
  | x :: r => let* y := f x in let* ys := traverse f r in Some (y :: ys)
  end.

End Json.
Import Json.

(* ------------------------------------------------------------------ *)
(** ** [enforce_career_progression] (resume_tailor.py) *)
Module Career.

Definition markers : list string := ["Senior"; "Lead"; "Principal"; "Staff"].
Definition domain_prefixes : list string :=
  ["Senior"; "Lead"; "Principal"; "Staff"; "Junior"; "Mid-level"; "Mid"].
Definition last_prefixes : list string :=
  ["Senior"; "Lead"; "Principal"; "Staff"; "Mid-level"; "Mid"].

(** [any(word.lower() in t.lower() for word in [Senior, Lead, Principal, Staff])] *)
Definition has_marker (t : string) : bool :=
  existsb (fun w => contains (lower w) (lower t)) markers.

(** [exp.get("title", '')] followed by a string method: a non-dict entry or
    a non-string title raises. *)
Definition get_title (e : json) : option string :=
  match e with
  | JObj d =>
      match lookup "title" d with
      | None => Some EmptyString
      | Some (JStr s) => Some s
      | Some _ => None
      end
  | _ => None
  end.

Definition set_title (e : json) (t : string) : json :=
  match e with
  | JObj d => JObj (set_key "title" (JStr t) d)
  | _ => e
  end.

(** Domain derived from the first title: every prefix removed
    (case-sensitively) then stripped, ["Developer"] when nothing is left. *)
Definition derive_domain (first_title : string) : string :=
  let clean := fold_left (fun tc p => strip (replace_all p EmptyString tc)) domain_prefixes first_title in
  if String.eqb clean EmptyString then "Developer" else clean.

Definition domain_of (job_domain first_title : string) : string :=
  if String.eqb job_domain EmptyString then derive_domain first_title else job_domain.

Definition base_title (domain : string) : string :=
  if contains "Developer" domain || contains "Engineer" domain then domain
  else domain ^^ " Developer".

(** The first prefix of [ps] found (case-insensitively) in [t]. *)
Fixpoint find_prefix (ps : list string) (t : string) : option string :=
  match ps with
  | [] => None
  | p :: r => if contains (lower p) (lower t) then Some p else find_prefix r t
  end.

(** The loop [for prefix in ps: if prefix.lower() in t.lower(): t =
    t.replace(prefix, '').strip(); break]. *)
Definition clean_first (ps : list string) (t : string) : string :=
  match find_prefix ps t with
  | Some p => strip (replace_all p EmptyString t)
  | None => t
  end.

(** Entry 0: the new title, or [None] when it is left alone. *)
Definition first_rule (domain base t : string) : option string :=
  if negb (has_marker t) then Some ("Senior " ^^ base)
  else if negb (contains (lower domain) (lower t)) then
    match find_prefix markers t with
    | Some p => Some (p ^^ " " ^^ base)
    | None => None
    end
  else None.

(** The last entry (only when there are at least two). *)
Definition last_rule (n : nat) (domain base t : string) : string :=
  let c := clean_first last_prefixes t in
  if has_marker c then (if Nat.ltb 1 n then "Junior " ^^ base else base)
  else if negb (contains (lower domain) (lower c)) then
    (if Nat.ltb 2 n then "Junior " ^^ base else base)
  else c.

(** Interior entries. *)
Definition mid_rule (domain base t : string) : string :=
  let c := clean_first domain_prefixes t in
  if negb (contains (lower domain) (lower c)) then base else c.

Definition update_first (domain base : string) (e : json) : option json :=
  let* t := get_title e in
  match first_rule domain base t with
  | Some t' => Some (set_title e t')
  | None => Some e
  end.

Definition update_last (n : nat) (domain base : string) (e : json) : option json :=
  let* t := get_title e in Some (set_title e (last_rule n domain base t)).

Definition update_mid (domain base : string) (e : json) : option json :=
  let* t := get_title e in Some (set_title e (mid_rule domain base t)).

(** The entries after the first are updated in place; the last entry is
    rewritten before the interior ones, which touch disjoint entries. *)
Definition enforce_entries (domain base : string) (e0 : json) (rest : list json)
  : option (list json) :=
  let n := S (length rest) in
  let* e0' := update_first domain base e0 in
  match rest with
  | [] => Some [e0']
  | _ :: _ =>
      let mids := removelast rest in
      let el := last rest JNull in
      let* el' := update_last n domain base el in
      let* mids' := traverse (update_mid domain base) mids in
      Some (e0' :: mids' ++ [el'])
  end.

Definition enforce_career_progression (resume : json) (job_domain : string) : option json :=
  let* has_exp := py_in "experience" resume in
  if negb has_exp then Some resume else
  let* exps := py_get "experience" resume in
  match exps with
  | JArr [] => Some resume
  | JArr (e0 :: rest) =>
      let* t0 := get_title e0 in
      let domain := domain_of job_domain t0 in
      let* exps' := enforce_entries domain (base_title domain) e0 rest in
      py_set "experience" (JArr exps') resume
  | _ => Some resume
  end.

End Career.

(** Views of a resume document used to state the career-progression claims. *)
Module ResumeView.

Definition experience_list (d : json) : option (list json) :=
  match d with
  | JObj fs => match lookup "experience" fs with Some (JArr l) => Some l | _ => None end
  | _ => None
  end.

Definition with_experience (d : json) (l : list json) : json :=
  match d with
  | JObj fs => JObj (set_key "experience" (JArr l) fs)
  | _ => d
  end.

(** The titles of the experience entries, the empty string for a missing or non-string
    title. *)
Definition titles (d : json) : list string :=
  match experience_list d with
  | Some l => map (fun e => match Career.get_title e with Some t => t | None => EmptyString end) l
  | None => []
  end.

(** One resume with the given experience titles. *)
Definition resume_with_titles (ts : list string) : json :=
  JObj [("experience", JArr (map (fun t => JObj [("title", JStr t)]) ts))].

End ResumeView.

(* ------------------------------------------------------------------ *)
(** ** Whole-word regex matching: [\bW\b] for a word [W] *)
Module WordRe.

(** [W] (already lower case for the verb tables) matches at the head of
    [s] when the characters agree case-insensitively and the match is not
    followed by a word character; [prev_word] says whether the character
    before is a word character.  Both ends of [W] are word characters, so
    [\b] reduces to these two tests. *)
Definition after_ok (w s : string) : bool :=
  match drop (String.length w) s with
  | EmptyString => true
  | String c _ => negb (is_word c)
  end.

Definition match_here (prev_word : bool) (w s : string) : bool :=
  negb prev_word && starts_with (lower w) (lower s) && after_ok w s.

(** [len(re.findall(r'\bW\b', s))]: matches of a word pattern cannot
    overlap, so this counts match positions. *)
Fixpoint count_go (prev_word : bool) (w s : string) : nat :=
  match s with
  | EmptyString => 0
  | String c r => (if match_here prev_word w s then 1 else 0) + count_go (is_word c) w r
  end.
Definition count_word (w s : string) : nat := count_go false w s.

(** [re.search(r'\bW\b', s)] *)
Definition search_word (w s : string) : bool := Nat.ltb 0 (count_word w s).

(** [re.sub(r'\bW\b', f, s, count=1, flags=re.IGNORECASE)]: [f] receives the
    matched text. *)
Fixpoint sub_first_go (prev_word : bool) (w : string) (f : string -> string) (s : string)
  : string :=
  match s with
  | EmptyString => EmptyString
  | String c r =>
      if match_here prev_word w s then
        f (substring 0 (String.length w) s) ^^ drop (String.length w) s
      else String c (sub_first_go (is_word c) w f r)
  end.
Definition sub_first (w : string) (f : string -> string) (s : string) : string :=
  sub_first_go false w f s.

(** [re.sub(r'\bW\b', rep, s, flags=re.IGNORECASE)]: every match, scanning
    the original string left to right. *)
Fixpoint sub_all_go (fuel : nat) (prev_word : bool) (w rep : string) (s : string) : string :=
  match fuel with
  | O => s
  | S k =>
      match s with
      | EmptyString => EmptyString
      | String c r =>
          if match_here prev_word w s then
            let rest := drop (String.length w) s in
            let last_word :=
              match substring (String.length w - 1) 1 s with
              | String c' _ => is_word c'
              | EmptyString => false
              end in
            rep ^^ sub_all_go k last_word w rep rest
          else String c (sub_all_go k (is_word c) w rep r)
      end
  end.
Definition sub_all (w rep s : string) : string :=
  sub_all_go (S (String.length s)) false w rep s.

End WordRe.

(* ------------------------------------------------------------------ *)
(** ** [fix_repetitive_verbs] (resume_tailor.py) *)
Module Verbs.
Import WordRe.

Definition verb_alternatives : list (string * list string) := [
  ("architected", ["engineered"; "designed"; "built"; "constructed"; "developed"; "crafted"; "established"; "pioneered"]);
  ("architecting", ["engineering"; "designing"; "building"; "constructing"; "developing"; "crafting"]);
  ("developed", ["architected"; "engineered"; "built"; "designed"; "created"; "implemented"; "delivered"; "constructed"; "established"; "pioneered"]);
  ("developing", ["architecting"; "engineering"; "building"; "designing"; "creating"; "implementing"; "delivering"]);
  ("optimized", ["enhanced"; "streamlined"; "improved"; "refined"; "upgraded"; "boosted"; "maximized"]);
  ("created", ["established"; "founded"; "built"; "designed"; "launched"; "pioneered"; "initiated"; "introduced"]);
  ("implemented", ["deployed"; "integrated"; "executed"; "established"; "introduced"; "rolled out"; "delivered"]);
  ("built", ["architected"; "engineered"; "constructed"; "developed"; "designed"; "crafted"; "assembled"]);
  ("designed", ["architected"; "crafted"; "created"; "engineered"; "planned"; "conceptualized"; "modeled"]);
  ("led", ["spearheaded"; "orchestrated"; "managed"; "directed"; "headed"; "guided"; "championed"]);
  ("managed", ["orchestrated"; "supervised"; "coordinated"; "oversaw"; "directed"; "administered"; "governed"]);
  ("improved", ["enhanced"; "optimized"; "upgraded"; "refined"; "boosted"; "elevated"; "advanced"]);
  ("increased", ["boosted"; "enhanced"; "amplified"; "expanded"; "scaled"; "multiplied"; "accelerated"]);
  ("reduced", ["minimized"; "decreased"; "lowered"; "cut"; "slashed"; "diminished"; "curtailed"]);
  ("collaborated", ["partnered"; "worked with"; "cooperated"; "teamed up"; "joined forces"]);
  ("delivered", ["executed"; "completed"; "achieved"; "accomplished"; "realized"; "fulfilled"])
].

Definition verb_alternatives_for_duplicates : list (string * list string) := [
  ("architected", ["engineered"; "designed"; "built"; "constructed"]);
  ("architecting", ["engineering"; "designing"; "building"; "constructing"]);
  ("developed", ["engineered"; "built"; "designed"; "created"]);
  ("designed", ["architected"; "crafted"; "created"; "engineered"]);
  ("built", ["architected"; "engineered"; "constructed"; "developed"]);
  ("created", ["established"; "built"; "designed"; "launched"]);
  ("implemented", ["deployed"; "integrated"; "executed"; "established"])
].

Fixpoint assoc {A} (k : string) (t : list (string * A)) : option A :=
  match t with
  | [] => None
  | (k', v) :: r => if String.eqb k k' then Some v else assoc k r
  end.

(** Where a text item came from: the top-level summary, or the experience
    entry at an index (the item holds a reference to that dict). *)
Inductive src := SrcSummary | SrcExp (k : nat).

Definition fields := list (string * json).

Definition exps_of (fs : fields) : list json :=
  match lookup "experience" fs with Some (JArr l) => l | _ => [] end.
Definition exp_at (fs : fields) (k : nat) : json := nth k (exps_of fs) JNull.
Fixpoint replace_nth {A} (k : nat) (x : A) (l : list A) : list A :=
  match k, l with
  | _, [] => []
  | O, _ :: r => x :: r
  | S k', y :: r => y :: replace_nth k' x r
  end.
Definition set_exp (fs : fields) (k : nat) (e : json) : fields :=
  set_key "experience" (JArr (replace_nth k e (exps_of fs))) fs.

(** [if key in exp and isinstance(exp[key], T)]: the value when the test
    passes; a non-dict entry that "contains" the key raises on [exp[key]]. *)
Definition guarded_get (key : string) (e : json) : option (option json) :=
  let* b := py_in key e in
  if b then let* v := py_get key e in Some (Some v) else Some None.

(** Collecting [all_text_items]. *)
Definition items_of_exp (k : nat) (e : json) : option (list (src * json)) :=
  let* hv := guarded_get "highlights" e in
  let hs := match hv with Some (JArr l) => map (fun h => (SrcExp k, h)) l | _ => [] end in
  let* sv := guarded_get "summary" e in
  let ss := match sv with Some (JStr s) => [(SrcExp k, JStr s)] | _ => [] end in
  Some (hs ++ ss).

Fixpoint items_of_exps (k : nat) (l : list json) : option (list (src * json)) :=
  match l with
  | [] => Some []
  | e :: r => let* a := items_of_exp k e in let* b := items_of_exps (S k) r in Some (a ++ b)
  end.

Definition collect_items (fs : fields) : option (list (src * json)) :=
  let top := match lookup "summary" fs with Some (JStr s) => [(SrcSummary, JStr s)] | _ => [] end in
  let* rest := items_of_exps 0 (exps_of fs) in
  Some (top ++ rest).

(** [verb_counts]: a dict filled in order of first discovery. *)
Fixpoint add_count (v : string) (n : nat) (c : list (string * nat)) : list (string * nat) :=
  match c with
  | [] => [(v, n)]
  | (v', m) :: r => if String.eqb v v' then (v', m + n) :: r else (v', m) :: add_count v n r
  end.

Definition count_text (c : list (string * nat)) (t : string) : list (string * nat) :=
  fold_left (fun c vk => let m := count_word (fst vk) (lower t) in
                         if Nat.eqb m 0 then c else add_count (fst vk) m c)
            verb_alternatives c.

Definition verb_counts (items : list (src * json)) : list (string * nat) :=
  fold_left (fun c it => match snd it with JStr t => count_text c t | _ => c end) items [].

(** [s == source] evaluated after [source] was updated. *)
Definition src_eq (fs : fields) (s source : src) : bool :=
  match s, source with
  | SrcSummary, SrcSummary => true
  | SrcExp k1, SrcExp k2 => py_eq (exp_at fs k1) (exp_at fs k2)
  | _, _ => false
  end.

(** [for idx, (s, t) in enumerate(items): if cond: items[idx] = new; break] *)
Fixpoint replace_first_item (p : src * json -> bool) (x : src * json)
         (items : list (src * json)) : list (src * json) :=
  match items with
  | [] => []
  | it :: r => if p it then x :: r else it :: replace_first_item p x r
  end.

(** [text in X] for the value [X] of [source["highlights"]]. *)
Definition value_contains (X : json) (text : string) : option bool :=
  match X with
  | JArr l => Some (existsb (py_eq (JStr text)) l)
  | JStr x => Some (contains text x)
  | JObj d => Some (match lookup text d with Some _ => true | None => false end)
  | _ => None
  end.

Fixpoint index_of (text : string) (l : list json) : nat :=
  match l with
  | [] => 0
  | x :: r => if py_eq (JStr text) x then 0 else S (index_of text r)
  end.

(** [X[X.index(text)] = new]: only a list supports both. *)
Definition highlight_replace (X : json) (text new : string) : option json :=
  match X with
  | JArr l => Some (JArr (replace_nth (index_of text l) (JStr new) l))
  | _ => None
  end.

(** Writing [new_text] back to the document and to [all_text_items]. *)
Definition apply_update (fs : fields) (items : list (src * json)) (source : src)
           (text new : string) : option (fields * list (src * json)) :=
  match source with
  | SrcSummary =>
      let fs' := set_key "summary" (JStr new) fs in
      Some (fs', replace_first_item
                   (fun it => match fst it with SrcSummary => py_eq (snd it) (JStr text)
                                            | _ => false end)
                   (SrcSummary, JStr new) items)
  | SrcExp k =>
      match exp_at fs k with
      | JObj ed =>
          let* in_h :=
            match lookup "highlights" ed with
            | Some X => value_contains X text
            | None => Some false
            end in
          if in_h then
            let* X := lookup "highlights" ed in
            let* X' := highlight_replace X text new in
            let fs' := set_exp fs k (JObj (set_key "highlights" X' ed)) in
            Some (fs', replace_first_item
                         (fun it => src_eq fs' (fst it) (SrcExp k) && py_eq (snd it) (JStr text))
                         (SrcExp k, JStr new) items)
          else if match lookup "summary" ed with Some v => py_eq v (JStr text) | None => false end
          then
            let fs' := set_exp fs k (JObj (set_key "summary" (JStr new) ed)) in
            Some (fs', replace_first_item
                         (fun it => src_eq fs' (fst it) (SrcExp k) && py_eq (snd it) (JStr text))
                         (SrcExp k, JStr new) items)
          else Some (fs, items)
      | _ => Some (fs, items)
      end
  end.

(** The replacement [replace_first] returns for the matched text. *)
Definition cap_like (matched alt : string) : string :=
  if first_upper matched then capitalize alt else alt.

(** One iteration of [for source, text in all_text_items] for an overused
    verb; [rc] is [replacement_count]. *)
Definition verb_step (verb : string) (alts : list string) (needed : nat)
           (st : fields * list (src * json) * nat) (idx : nat)
  : option (fields * list (src * json) * nat) :=
  let '(fs, items, rc) := st in
  match nth_error items idx with
  | Some (source, JStr text) =>
      if Nat.ltb rc needed && search_word verb (lower text) then
        let alt := nth (Nat.modulo rc (length alts)) alts EmptyString in
        let new := sub_first verb (fun m => cap_like m alt) text in
        if String.eqb new text then Some (fs, items, S rc)
        else let* r := apply_update fs items source text new in
             Some (fst r, snd r, S rc)
      else Some st
  | _ => Some st
  end.

Fixpoint fold_opt {S A} (f : S -> A -> option S) (l : list A) (s : S) : option S :=
  match l with
  | [] => Some s
  | x :: r => let* s' := f s x in fold_opt f r s'
  end.

Definition fix_verb (st : fields * list (src * json)) (vc : string * nat)
  : option (fields * list (src * json)) :=
  let '(fs, items) := st in
  let '(verb, count) := vc in
  if Nat.ltb 2 count then
    match assoc verb verb_alternatives with
    | Some ((_ :: _) as alts) =>
        let* r := fold_opt (verb_step verb alts (count - 2)) (seq 0 (length items)) (fs, items, 0) in
        let '(fs', items', _) := r in Some (fs', items')
    | _ => Some st
    end
  else Some st.

(** The intra-string duplicate-word pass on one string's words. *)
Definition remove_nonword (s : string) : string :=
  (fix go (s : string) : string :=
     match s with
     | EmptyString => EmptyString
     | String c r => if is_word c then String c (go r) else go r
     end) s.

Definition dup_alternative (word_clean : string) : string :=
  match assoc word_clean verb_alternatives_for_duplicates with
  | Some (a :: _) => a
  | _ => "engineered"
  end.

Fixpoint dedup_go (seen : list string) (words : list string) : list string :=
  match words with
  | [] => []
  | w :: r =>
      let wc := remove_nonword (lower w) in
      if negb (String.eqb wc EmptyString) && existsb (String.eqb wc) seen then
        cap_like w (dup_alternative wc) :: dedup_go seen r
      else w :: dedup_go (wc :: seen) r
  end.
Definition dedup_words (words : list string) : list string := dedup_go [] words.

Fixpoint list_string_eqb (a b : list string) : bool :=
  match a, b with
  | [], [] => true
  | x :: a', y :: b' => String.eqb x y && list_string_eqb a' b'
  | _, _ => false
  end.

(** [words = s.split(); ...; if fixed != words: s = ' '.join(fixed)] *)
Definition dedup_string (s : string) : string :=
  let words := split_ws s in
  let fixed := dedup_words words in
  if list_string_eqb fixed words then s else join_sp fixed.

Definition dedup_json (v : json) : json :=
  match v with JStr s => JStr (dedup_string s) | _ => v end.

Definition dedup_exp (e : json) : option json :=
  let* hv := guarded_get "highlights" e in
  let e1 := match hv, e with
            | Some (JArr l), JObj ed => JObj (set_key "highlights" (JArr (map dedup_json l)) ed)
            | _, _ => e
            end in
  let* sv := guarded_get "summary" e1 in
  match sv, e1 with
  | Some (JStr s), JObj ed => Some (JObj (set_key "summary" (JStr (dedup_string s)) ed))
  | _, _ => Some e1
  end.

Definition fix_repetitive_verbs (rd : json) : option json :=
  let* has_exp := py_in "experience" rd in
  if negb has_exp then Some rd else
  let* ex := py_get "experience" rd in
  match ex, rd with
  | JArr _, JObj fs =>
      let* items := collect_items fs in
      let counts := verb_counts items in
      let* r := fold_opt fix_verb counts (fs, items) in
      let fs1 := fst r in
      let* exps' := traverse dedup_exp (exps_of fs1) in
      Some (JObj (set_key "experience" (JArr exps') fs1))
  | _, _ => Some rd
  end.

End Verbs.

(* ------------------------------------------------------------------ *)
(** ** [convert_markdown_bold_to_html] (resume_tailor.py) *)
Module Bold.

Definition nl : ascii := Ascii.ascii_of_nat 10.
Definition dstar : string := "**".

(** After an opening [**] and the first character of the group: the
    shortest continuation [x] followed by [**], with no newline in [x]
    ([.] does not match a newline).  Returns [x] and the text after the
    closing [**]. *)
Fixpoint find_close (s : string) : option (string * string) :=
  if starts_with dstar s then Some (EmptyString, drop 2 s) else
  match s with
  | EmptyString => None
  | String c r =>
      if Ascii.eqb c nl then None
      else match find_close r with
           | Some (x, rest) => Some (String c x, rest)
           | None => None
           end
  end.

(** [re.sub(r'\*\*(.+?)\*\*', r'<strong>\1</strong>', s)]: leftmost
    matches, scanning on after each one. *)
Fixpoint bold_go (fuel : nat) (s : string) : string :=
  match fuel with
  | O => s
  | S k =>
      match s with
      | EmptyString => EmptyString
      | String c r =>
          let fallback := String c (bold_go k r) in
          if starts_with dstar s then
            match drop 2 s with
            | String c1 r1 =>
                if Ascii.eqb c1 nl then fallback else
                match find_close r1 with
                | Some (x, rest) =>
                    "<strong>" ^^ String c1 x ^^ "</strong>" ^^ bold_go k rest
                | None => fallback
                end
            | EmptyString => fallback
            end
          else fallback
      end
  end.
Definition bold_sub (s : string) : string := bold_go (S (String.length s)) s.

Fixpoint convert_markdown_bold_to_html (v : json) : json :=
  match v with
  | JObj d => JObj (map (fun kv => (fst kv, convert_markdown_bold_to_html (snd kv))) d)
  | JArr l => JArr (map convert_markdown_bold_to_html l)
  | JStr s => JStr (bold_sub s)
  | _ => v
  end.

(** Some string value of the structure contains [needle] (keys are not
    values). *)
Fixpoint any_string (p : string -> bool) (v : json) : bool :=
  match v with
  | JObj d => existsb (fun kv => any_string p (snd kv)) d
  | JArr l => existsb (any_string p) l
  | JStr s => p s
  | _ => false
  end.

End Bold.

(* ------------------------------------------------------------------ *)
(** ** The other post-processing steps of [tailor_resume] *)
Module Post.
Import WordRe Verbs.

(** [buzzword_replacements] in dict order (["utilize" or "use"] is
    ["utilize"], ["committed" or "dedicated"] is ["committed"]). *)
Definition buzzword_replacements : list (string * string) := [
  ("self-starter", "proactive professional");
  ("self starter", "proactive professional");
  ("attention to detail", "meticulous approach");
  ("problem-solving", "analytical thinking");
  ("problem solving", "analytical thinking");
  ("proven track record", "demonstrated success");
  ("proven track", "demonstrated");
  ("team player", "collaborative professional");
  ("hard worker", "dedicated professional");
  ("go-getter", "results-driven");
  ("think outside the box", "innovative approach");
  ("synergy", "collaboration");
  ("leverage", "utilize");
  ("utilize", "use");
  ("action-oriented", "results-driven");
  ("detail-oriented", "meticulous");
  ("passionate", "committed");
  ("rockstar", "expert");
  ("ninja", "specialist");
  ("guru", "expert")
].

Definition buzzword_skills : list string :=
  ["self-starter"; "attention to detail"; "problem-solving"; "team player"; "hard worker"].

Definition debuzz (s : string) : string :=
  fold_left (fun s br => sub_all (fst br) (snd br) s) buzzword_replacements s.

Definition debuzz_json (v : json) : json :=
  match v with JStr s => JStr (debuzz s) | _ => v end.

Definition debuzz_exp (e : json) : option json :=
  let* sv := guarded_get "summary" e in
  let e1 := match sv, e with
            | Some (JStr s), JObj ed => JObj (set_key "summary" (JStr (debuzz s)) ed)
            | _, _ => e end in
  let* hv := guarded_get "highlights" e1 in
  match hv, e1 with
  | Some (JArr l), JObj ed => Some (JObj (set_key "highlights" (JArr (map debuzz_json l)) ed))
  | _, _ => Some e1
  end.

(** [[skill for skill in l if skill.lower() not in buzzword_skills]]:
    [.lower()] raises on a non-string. *)
Fixpoint filter_skills (l : list json) : option (list json) :=
  match l with
  | [] => Some []
  | JStr s :: r =>
      let* r' := filter_skills r in
      if existsb (String.eqb (lower s)) buzzword_skills then Some r' else Some (JStr s :: r')
  | _ :: _ => None
  end.

Definition debuzz_category (d : list (string * json)) (cat : string) : option (list (string * json)) :=
  match lookup cat d with
  | Some (JArr l) =>
      let* l' := filter_skills l in
      match l' with [] => Some (del_key cat d) | _ => Some (set_key cat (JArr l') d) end
  | _ => Some d
  end.

Definition debuzz_skills (rd : json) : option json :=
  let* has := py_in "skills" rd in
  if negb has then Some rd else
  let* sk := py_get "skills" rd in
  match sk with
  | JObj d =>
      let* d' := fold_opt debuzz_category ["Soft Skills"; "soft_skills"; "Soft skills"] d in
      py_set "skills" (JObj d') rd
  | JArr l => let* l' := filter_skills l in py_set "skills" (JArr l') rd
  | _ => Some rd
  end.

Definition remove_buzzwords (rd : json) : option json :=
  let* sv := guarded_get "summary" rd in
  let* rd1 := match sv with Some (JStr s) => py_set "summary" (JStr (debuzz s)) rd
                            | _ => Some rd end in
  let* ev := guarded_get "experience" rd1 in
  let* rd2 := match ev with
              | Some (JArr l) => let* l' := traverse debuzz_exp l in
                                 py_set "experience" (JArr l') rd1
              | _ => Some rd1 end in
  debuzz_skills rd2.

(** [add_quantification_to_bullets]: it only inspects the highlights (the
    tests it makes can raise on malformed entries) and returns its input. *)
Definition add_quantification_to_bullets (rd : json) : option json :=
  let* ev := guarded_get "experience" rd in
  match ev with
  | Some (JArr l) => let* _ := traverse (guarded_get "highlights") l in Some rd
  | _ => Some rd
  end.

(** [validate_address(contact)] on [location = contact.get("location", '')]. *)
Definition validate_location (loc : json) : option bool :=
  if negb (truthy loc) then Some false else
  match loc with
  | JStr s =>
      let st := strip s in
      if String.eqb st EmptyString then Some false
      else if Nat.ltb (comma_parts s) 2 then Some false
      else if Nat.ltb (String.length st) 5 then Some false
      else Some true
  | _ => None
  end.

Definition address_repair (tr : json) : option json :=
  let* has := py_in "contact" tr in
  if negb has then Some tr else
  let* c := py_get "contact" tr in
  let* cur := py_get_default "location" (JStr EmptyString) c in
  let* valid := validate_location cur in
  if valid then Some tr else
  let* c' :=
    if truthy cur then
      match cur with
      | JStr s =>
          let n := comma_parts s in
          if Nat.eqb n 1 then py_set "location" (JStr (s ^^ ", Indonesia")) c
          else if Nat.eqb n 2 then
            if negb (contains "Indonesia" s || contains "USA" s || contains "United States" s)
            then py_set "location" (JStr (s ^^ ", Indonesia")) c
            else Some c
          else Some c
      | _ => None
      end
    else py_set "location" (JStr "City, State/Province, Country") c in
  py_set "contact" c' tr.

(** [if headline: tailored_resume["headline"] = headline] *)
Definition add_headline (headline : string) (tr : json) : option json :=
  if String.eqb headline EmptyString then Some tr else py_set "headline" (JStr headline) tr.

(** [[s.lower() for s in l]] *)
Definition lower_all (l : list json) : option (list string) :=
  traverse (fun v => match v with JStr s => Some (lower s) | _ => None end) l.

Definition variation (skill_lower existing : string) : bool :=
  contains skill_lower existing || contains existing skill_lower.

Definition hashable (v : json) : bool :=
  match v with JArr _ | JObj _ => false | _ => true end.

Section Ats.
(** [list(set(xs))]: the order of a set of strings depends on string hashing,
    so it is a parameter. *)
Variable set_order : list json -> list json.

(** [skill.lower()] on an element of [hard_skills]. *)
Definition lower_json (v : json) : option string :=
  match v with JStr s => Some (lower s) | _ => None end.

Definition ats_backfill (hard_skills : list json) (tr : json) : option json :=
  match hard_skills with [] => Some tr | _ =>
  let* has := py_in "skills" tr in
  if negb has then Some tr else
  let* sk := py_get "skills" tr in
  match sk with
  | JObj d =>
      let* flat := traverse (fun kv => match snd kv with
                                       | JArr l => lower_all l
                                       | _ => Some [] end) d in
      let existing := concat flat in
      let* hl := traverse lower_json hard_skills in
      let missing := map fst (filter (fun p => negb (existsb (variation (snd p)) existing))
                                     (combine hard_skills hl)) in
      match missing with
      | [] => Some tr
      | _ =>
          match lookup "Technologies" d with
          | Some (JArr et) =>
              let xs := et ++ missing in
              if forallb hashable xs
              then py_set "skills" (JObj (set_key "Technologies" (JArr (set_order xs)) d)) tr
              else None
          | Some _ => Some tr
          | None => py_set "skills" (JObj (set_key "Technologies" (JArr missing) d)) tr
          end
      end
  | JArr l =>
      let* existing := lower_all l in
      let* hl := traverse lower_json hard_skills in
      let added := map fst (filter (fun p => negb (existsb (String.eqb (snd p)) existing)
                                             && negb (existsb (variation (snd p)) existing))
                                   (combine hard_skills hl)) in
      py_set "skills" (JArr (l ++ added)) tr
  | _ => Some tr
  end
  end.

(** The post-processing of a parsed tailoring response, in the order of
    [tailor_resume]. *)
Definition post_process (headline domain : string) (hard_skills : list json) (tr : json)
  : option json :=
  let* t1 := add_headline headline tr in
  let* t2 := address_repair t1 in
  let* t3 := Career.enforce_career_progression t2 domain in
  let* t4 := ats_backfill hard_skills t3 in
  let* t5 := fix_repetitive_verbs t4 in
  let* t6 := remove_buzzwords t5 in
  let* t7 := add_quantification_to_bullets t6 in
  Some (Bold.convert_markdown_bold_to_html t7).
End Ats.

End Post.

(* ------------------------------------------------------------------ *)
(** ** Views used to state properties of the post-processing *)
Module PostView.
Import WordRe Verbs.

(** How often [v] occurs, whole-word and case-insensitively, over the
    top-level summary and every experience entry's summary and highlights. *)
Definition resume_word_count (v : string) (d : json) : nat :=
  match d with
  | JObj fs =>
      match collect_items fs with
      | Some items =>
          fold_left (fun n it => match snd it with
                                 | JStr t => n + count_word v (lower t)
                                 | _ => n end) items 0
      | None => 0
      end
  | _ => 0
  end.

Definition highlights_doc (hs : list string) : json :=
  JObj [("experience", JArr [JObj [("highlights", JArr (map JStr hs))]])].

(** [re.sub(r'[^\w]', '', word.lower())] *)
Definition clean (w : string) : string := remove_nonword (lower w).

(** Induction over [json] with the nested lists. *)
Section JsonInd.
Variable P : json -> Prop.
Hypothesis HNull : P JNull.
Hypothesis HBool : forall b, P (JBool b).
Hypothesis HNum : forall z, P (JNum z).
Hypothesis HStr : forall s, P (JStr s).
Hypothesis HArr : forall l, Forall P l -> P (JArr l).
Hypothesis HObj : forall d, Forall (fun kv => P (snd kv)) d -> P (JObj d).

Fixpoint json_ind' (v : json) : P v :=
  match v with
  | JNull => HNull
  | JBool b => HBool b
  | JNum z => HNum z
  | JStr s => HStr s
  | JArr l =>
      HArr l ((fix go (l : list json) : Forall P l :=
                 match l with
                 | [] => @Forall_nil _ P
                 | x :: r => @Forall_cons _ P x r (json_ind' x) (go r)
                 end) l)
  | JObj d =>
      HObj d ((fix go (d : list (string * json)) : Forall (fun kv => P (snd kv)) d :=
                 match d with
                 | [] => @Forall_nil _ (fun kv => P (snd kv))
                 | (k, x) :: r =>
                     @Forall_cons _ (fun kv => P (snd kv)) (k, x) r (json_ind' x) (go r)
                 end) d)
  end.
End JsonInd.

End PostView.

(* ------------------------------------------------------------------ *)
(** ** The tailoring pipeline [tailor_resume] and its model sub-calls *)
Module Pipeline.
Import Post.

(** What one [model.generate_content(prompt)] call does: return a response
    whose [.text] is the string, or raise. *)
Inductive reply := Reply (text : string) | Raise.

(** [s.split(sep, 1)] when [sep] occurs: the text before and after its first
    occurrence. *)
Fixpoint split_once (sep s : string) : option (string * string) :=
  if starts_with sep s then Some (EmptyString, drop (String.length sep) s) else
  match s with
  | EmptyString => None
  | String c r =>
      match split_once sep r with
      | Some (a, b) => Some (String c a, b)
      | None => None
      end
  end.

(** [s.split(sep, 1)[0]] *)
Definition before_sep (sep s : string) : string :=
  match split_once sep s with Some (a, _) => a | None => s end.

(** [s.split(sep)[-1]] *)
Fixpoint last_part (fuel : nat) (sep s : string) : string :=
  match fuel with
  | O => s
  | S k => match split_once sep s with Some (_, b) => last_part k sep b | None => s end
  end.

Definition fence : string := "```".
(** The characters [strip] removes there: double quote, quote, backquote. *)
Definition quote_chars : string := String (Ascii.ascii_of_nat 34) "'`".
Definition fence_json : string := "```json".


(** The JSON text the skill and education extractors take from a stripped
    response (no check for a closing fence). *)
Definition json_text_loose (t : string) : string :=
  match split_once fence_json t with
  | Some (_, after) => strip (before_sep fence after)
  | None =>
      match split_once fence t with
      | Some (_, after) => strip (before_sep fence after)
      | None => t
      end
  end.

(** [try: body except Exception: default] *)
Definition try_except {A} (body : option A) (dflt : A) : A :=
  match body with Some a => a | None => dflt end.



(** [generate_headline] for a non-empty job title. *)
Definition generate_headline (job_title years : string) (r : reply) : string :=
  try_except
    (match r with
     | Raise => None
     | Reply text =>
         let h := strip_chars quote_chars (strip text) in
         let h := if contains fence h then strip (last_part (String.length h) fence h) else h in
         let h := strip_chars ".,;:" h in
         Some (if contains (lower job_title) (lower h) then h else job_title ^^ " | " ^^ h)
     end)
    (if String.eqb years EmptyString then job_title
     else job_title ^^ " | " ^^ years ^^ "+ Years of Experience").


Definition skills_keys : list string :=
  ["hard_skills"; "soft_skills"; "keywords"; "required_technologies"; "preferred_technologies"].

Definition skills_default : json := JObj (map (fun k => (k, JArr [])) skills_keys).


Section Loads.
(** [json.loads]: [None] is a [JSONDecodeError]. *)
Variable json_loads : string -> option json.

Definition extract_skills_for_ats (r : reply) : json :=
  try_except
    (match r with
     | Raise => None
     | Reply text =>
         let* result := json_loads (json_text_loose (strip text)) in
         let* vs := traverse (fun k => py_get_default k (JArr []) result) skills_keys in
         Some (JObj (combine skills_keys vs))
     end) skills_default.


End Loads.
End Pipeline.

(* ------------------------------------------------------------------ *)
(** ** [validate_address], [extract_address_requirements] and
    [job_title_in_resume] (resume_tailor.py) *)
Module Checks.
Import Post.

Definition validate_address (contact : json) : option (bool * string) :=
  let* location := py_get_default "location" (JStr EmptyString) contact in
  if negb (truthy location) then Some (false, "Address is missing") else
  match location with
  | JStr s =>
      if String.eqb (strip s) EmptyString then Some (false, "Address is missing")
      else if Nat.ltb (comma_parts s) 2 then
        Some (false, "Address is incomplete - should include city and country/state")
      else if Nat.ltb (String.length (strip s)) 5 then
        Some (false, "Address appears to be incomplete")
      else Some (true, EmptyString)
  | _ => None
  end.

Record address_requirements := {
  requires_address : bool; location_preference : option string;
  remote_allowed : bool; relocation_required : bool
}.

Definition extract_address_requirements (job_description : string) : address_requirements :=
  let job_lower := lower job_description in
  let any_term ts := existsb (fun t => contains t job_lower) ts in
  {| requires_address :=
       any_term ["must be located in"; "based in"; "relocate to"; "onsite"; "on-site"];
     location_preference := None;
     remote_allowed := any_term ["remote"; "work from home"; "wfh"; "distributed team"];
     relocation_required := any_term ["relocation"; "relocate"; "willing to relocate"] |}.

(** [set(ws)]: the distinct words. *)
Fixpoint dedup_str (ws : list string) : list string :=
  match ws with
  | [] => []
  | w :: r => if existsb (String.eqb w) r then dedup_str r else w :: dedup_str r
  end.

(** One experience entry of the loop; [None] raises ([.get] on a non-dict,
    [.lower()] on a non-string title). *)
Definition title_matches (job_title_lower : string) (exp : json) : option bool :=
  let* t := py_get_default "title" (JStr EmptyString) exp in
  match t with
  | JStr s =>
      let title := lower s in
      if contains job_title_lower title || contains title job_title_lower then Some true
      else
        let job_title_words := dedup_str (split_ws job_title_lower) in
        let title_words := dedup_str (split_ws title) in
        let common := length (filter (fun w => existsb (String.eqb w) title_words)
                                     job_title_words) in
        (* [common / max(len(job_title_words), 1) > 0.5] *)
        Some (Nat.ltb (Nat.max (length job_title_words) 1) (2 * common))
  | _ => None
  end.

Fixpoint titles_match (job_title_lower : string) (exps : list json) : option bool :=
  match exps with
  | [] => Some false
  | e :: r =>
      let* b := title_matches job_title_lower e in
      if b then Some true else titles_match job_title_lower r
  end.

(** [for exp in experiences] over what [resume_data.get("experience", [])]
    gave: a list, or the keys of a dict and the characters of a string
    (strings, on which [.get] raises). *)
Definition job_title_in_resume (job_title : string) (resume_data : json) : option bool :=
  if String.eqb job_title EmptyString then Some false else
  let job_title_lower := lower job_title in
  let* summary := py_get_default "summary" (JStr EmptyString) resume_data in
  match summary with
  | JStr s =>
      if contains job_title_lower (lower s) then Some true else
      let* experiences := py_get_default "experience" (JArr []) resume_data in
      match experiences with
      | JArr l => titles_match job_title_lower l
      | JObj [] | JStr EmptyString => Some false
      | _ => None
      end
  | _ => None
  end.

End Checks.

(* ------------------------------------------------------------------ *)
(** ** [tailor_resume]: the main call and its one caught exception *)
Module Tailor.
Import Post Pipeline Checks.


(** What a file written under [output/] holds. *)
Inductive content := RawText (s : string) | JsonDoc (j : json).









Section Run.
Variable json_loads : string -> option json.
Variable set_order : list json -> list json.


End Run.

End Tailor.

(* ------------------------------------------------------------------ *)
(** ** A small parser for concrete runs of the pipeline *)
Module TailorView.


End TailorView.

(* ------------------------------------------------------------------ *)
(** ** [ClaudeModelWrapper.generate_content] (main.py) *)
Module Gateway.

(** What [claude_client.messages.create] does: return the text of the
    response's content blocks, or raise an exception with [str(e)] and
    possibly a [status_code]. *)
Inductive claude_result :=
| ClaudeContent (blocks : list string)
| ClaudeError (msg : string) (status_code : option Z).

(** What [openai_client.chat.completions.create] does: return the content of
    its first choice (no choice at all is [OpenAINoChoices]), or raise. *)
Inductive openai_result :=
| OpenAIContent (content : string)
| OpenAINoChoices
| OpenAIError (msg : string).

Inductive backend := Claude | OpenAI.

(** A call returns [response.text] or raises with a message. *)
Inductive result := Ok (text : string) | Exn (msg : string).

(** The gateway's state and what each call did. *)
Record gateway := {
  has_claude : bool; has_openai : bool; credit_exhausted : bool;
  calls : list (backend * string)
}.

Definition credit_error_keywords : list string := [
  "credit balance"; "too low"; "insufficient"; "payment"; "payment required"; "billing";
  "account"; "quota"; "limit exceeded"; "402"; "payment_method"
].

Definition is_credit_error (msg : string) (status_code : option Z) : bool :=
  existsb (fun k => contains k (lower msg)) credit_error_keywords
  || match status_code with Some z => Z.eqb z 402 | None => false end.

Definition with_flag (g : gateway) (b : bool) : gateway :=
  {| has_claude := has_claude g; has_openai := has_openai g; credit_exhausted := b;
     calls := calls g |}.
Definition log_call (g : gateway) (c : backend * string) : gateway :=
  {| has_claude := has_claude g; has_openai := has_openai g;
     credit_exhausted := credit_exhausted g; calls := calls g ++ [c] |}.

(** [_use_openai(prompt)]: every failure becomes
    [Exception("OpenAI API error: ...")]. *)
Definition use_openai (g : gateway) (prompt : string) (o : openai_result) : gateway * result :=
  let g := log_call g (OpenAI, prompt) in
  match o with
  | OpenAIContent c =>
      if String.eqb c EmptyString then (g, Exn "OpenAI API error: OpenAI API returned empty content")
      else (g, Ok c)
  | OpenAINoChoices => (g, Exn "OpenAI API error: OpenAI API returned no choices")
  | OpenAIError m => (g, Exn ("OpenAI API error: " ^^ m))
  end.

Definition generate_content (g0 : gateway) (prompt : string)
           (c : claude_result) (o : openai_result) : gateway * result :=
  let g := with_flag g0 false in
  if has_claude g then
    let g := log_call g (Claude, prompt) in
    (* the [try] block returns [response.content[0].text] or ends with an
       exception *)
    let attempt : string + (string * option Z) :=
      match c with
      | ClaudeContent [] => inr ("Claude API returned no content", None)
      | ClaudeContent (b :: _) =>
          if String.eqb b EmptyString then inr ("Claude API returned empty content", None)
          else inl b
      | ClaudeError m st => inr (m, st)
      end in
    match attempt with
    | inl b => (g, Ok b)
    | inr (m, st) =>
        if is_credit_error m st then
          let g := with_flag g true in
          if has_openai g then use_openai g prompt o
          else (g, Exn ("Claude API error (insufficient credits) and no OpenAI fallback available: " ^^ m))
        else if has_openai g then use_openai g prompt o
        else (g, Exn ("Claude API error: " ^^ m))
    end
  else if has_openai g then use_openai g prompt o
  else (g, Exn "No API client available").

End Gateway.

(* ------------------------------------------------------------------ *)
(** ** The batch endpoint's per-row unit [_process_one_batch_job] (main.py) *)
Module Batch.

(** A row payload as the endpoint builds it. *)
Record row := {
  row_number : nat; job_title : string; safe_title : string; questions : list string
}.

(** Whether a step of the row's work completes or raises with [str(e)]. *)
Inductive step := Completes | Fails (msg : string).

(** What [generate_cover_letter] does: raise, return no existing file, or
    return an existing PDF. *)
Inductive cover := CoverFails (msg : string) | CoverAbsent | CoverPath.

(** The behaviour of the steps of one row: folder creation with
    [tailor_resume]; the resume PDF with its copy; the cover letter; the
    moves and copy of its files; and the question answers with their PDF. *)
Record row_env := {
  e_tailor : step; e_resume_filename : string; e_resume : step;
  e_cover : cover; e_cover_files : step; e_questions : step
}.

(** A [GeneratedFile] and a [RowError] (paths left out). *)
Record gfile := { gf_type : string; gf_title : string; gf_folder : string; gf_filename : string }.
Record row_error := { err_row : nat; err_title : string; err_msg : string }.

Definition resume_file (r : row) (e : row_env) : gfile :=
  {| gf_type := "resume"; gf_title := job_title r; gf_folder := safe_title r;
     gf_filename := e_resume_filename e |}.
Definition cover_file (r : row) : gfile :=
  {| gf_type := "cover_letter"; gf_title := job_title r; gf_folder := safe_title r;
     gf_filename := "cover_letter.pdf" |}.
Definition question_file (r : row) : gfile :=
  {| gf_type := "question"; gf_title := job_title r; gf_folder := safe_title r;
     gf_filename := "question.pdf" |}.

Definition row_err (r : row) (msg : string) : row_error :=
  {| err_row := row_number r; err_title := job_title r; err_msg := msg |}.

(** [if questions: try: ... except Exception as e: errors_for_row.append(...)] *)
Definition question_part (r : row) (e : row_env) (files : list gfile)
  : list gfile * list row_error :=
  match questions r with
  | [] => (files, [])
  | _ =>
      match e_questions e with
      | Completes => (files ++ [question_file r], [])
      | Fails m => (files, [row_err r ("Failed to generate question PDF: " ^^ m)])
      end
  end.

Definition process_one_batch_job (r : row) (e : row_env) : list gfile * list row_error :=
  (* the outer [except Exception as e] keeps the files generated so far *)
  let outer_fail files m := (files, [row_err r m]) in
  match e_tailor e with
  | Fails m => outer_fail [] m
  | Completes =>
      match e_resume e with
      | Fails m => outer_fail [] m
      | Completes =>
          let files := [resume_file r e] in
          match e_cover e with
          | CoverFails m => outer_fail files m
          | CoverAbsent => question_part r e files
          | CoverPath =>
              match e_cover_files e with
              | Fails m => outer_fail files m
              | Completes => question_part r e (files ++ [cover_file r])
              end
          end
      end
  end.

(** [asyncio.gather] returns the rows' results in submission order; they are
    concatenated. *)
Definition run_batch (rows : list (row * row_env)) : list gfile * list row_error :=
  (flat_map (fun p => fst (process_one_batch_job (fst p) (snd p))) rows,
   flat_map (fun p => snd (process_one_batch_job (fst p) (snd p))) rows).

(** A row none of whose steps raises. *)
Definition no_failure (e : row_env) : bool :=
  match e_tailor e, e_resume e, e_cover e, e_cover_files e, e_questions e with
  | Completes, Completes, (CoverAbsent | CoverPath), Completes, Completes => true
  | _, _, _, _, _ => false
  end.

End Batch.

(** Five rows where only row 3's question answering raises. *)
Module BatchDemo.
Import Batch.

Definition demo_row (n : nat) (title safe : string) (qs : list string) : row :=
  {| row_number := n; job_title := title; safe_title := safe; questions := qs |}.

Definition demo_env (q : step) : row_env :=
  {| e_tailor := Completes; e_resume_filename := "JaneDoe_resume.pdf"; e_resume := Completes;
     e_cover := CoverPath; e_cover_files := Completes; e_questions := q |}.

Definition row3 : row :=
  demo_row 3 "Data Engineer" "Data_Engineer" ["Why us?"].
Definition env3 : row_env := demo_env (Fails "rate limited").

Definition demo_before : list (row * row_env) :=
  [(demo_row 1 "Backend Engineer" "Backend_Engineer" [], demo_env Completes);
   (demo_row 2 "ML Engineer" "ML_Engineer" [], demo_env Completes)].
Definition demo_after : list (row * row_env) :=
  [(demo_row 4 "SRE" "SRE" [], demo_env Completes);
   (demo_row 5 "QA Engineer" "QA_Engineer" [], demo_env Completes)].

End BatchDemo.

(* ------------------------------------------------------------------ *)
(** ** The batch endpoint's [asyncio.Semaphore] (main.py, [run_one])

    Each row's task runs [async with sem: await asyncio.to_thread(...)].
    The semaphore's operations run on the event loop between awaits, so each
    is one atomic step; the scheduler interleaves them in any order.  The
    state is [Semaphore._value], the [_waiters] deque (as task numbers) and
    the phase of every row task; a waiter's future is done exactly when its
    task is [Granted].  Cancellation is not modelled. *)
Module Sem.

Inductive phase :=
| Fresh     (* not yet at [async with sem] *)
| Waiting   (* its future is in [_waiters], not done *)
| Granted   (* its future was set by [_wake_up_next]; the task has not resumed *)
| Holding   (* inside the [async with] body *)
| Finished. (* left the body: [release()] ran *)

Definition phase_eqb (p q : phase) : bool :=
  match p, q with
  | Fresh, Fresh | Waiting, Waiting | Granted, Granted | Holding, Holding
  | Finished, Finished => true
  | _, _ => false
  end.

Record state := { value : nat; phases : list phase; waiters : list nat }.

Fixpoint upd (l : list phase) (i : nat) (p : phase) : list phase :=
  match l, i with
  | [], _ => []
  | _ :: r, 0 => p :: r
  | q :: r, S j => q :: upd r j p
  end.

Definition set_phase (st : state) (i : nat) (p : phase) : state :=
  {| value := value st; phases := upd (phases st) i p; waiters := waiters st |}.

Fixpoint count_phase (p : phase) (l : list phase) : nat :=
  match l with
  | [] => 0
  | q :: r => (if phase_eqb p q then 1 else 0) + count_phase p r
  end.

(** [locked()]: no waiter is cancelled, so any waiter makes it locked. *)
Definition locked (st : state) : bool :=
  Nat.eqb (value st) 0 || negb (match waiters st with [] => true | _ => false end).

(** The first waiter whose future is not done. *)
Fixpoint first_waiting (ph : list phase) (ws : list nat) : option nat :=
  match ws with
  | [] => None
  | w :: ws' =>
      match nth_error ph w with
      | Some Waiting => Some w
      | _ => first_waiting ph ws'
      end
  end.

(** [_wake_up_next()]: [None] when no future was set. *)
Definition wake_up_next (st : state) : option state :=
  match first_waiting (phases st) (waiters st) with
  | Some w =>
      Some {| value := value st - 1; phases := upd (phases st) w Granted;
              waiters := waiters st |}
  | None => None
  end.

(** [while self._value > 0: if not self._wake_up_next(): break], at most
    [k] rounds: Python 3.12 loops ([k] the number of tasks bounds it), 3.11
    wakes at most one waiter ([if self._value > 0: self._wake_up_next()],
    [k = 1]). *)
Fixpoint wake_loop (k : nat) (st : state) : state :=
  match k with
  | 0 => st
  | S k' =>
      if Nat.ltb 0 (value st) then
        match wake_up_next st with Some st' => wake_loop k' st' | None => st end
      else st
  end.

Definition remove_waiter (i : nat) (ws : list nat) : list nat :=
  (* [deque.remove(fut)]: the first occurrence *)
  let fix go ws := match ws with
                   | [] => []
                   | w :: r => if Nat.eqb w i then r else w :: go r
                   end in go ws.

Inductive action :=
| Start (i : nat)             (* task [i] reaches [acquire()] *)
| Resume (i : nat) (k : nat)  (* task [i]'s awaited future is done; it resumes *)
| Release (i : nat).          (* task [i]'s thread returned: [release()] *)

Definition step (a : action) (st : state) : option state :=
  match a with
  | Start i =>
      match nth_error (phases st) i with
      | Some Fresh =>
          if negb (locked st) then
            Some {| value := value st - 1; phases := upd (phases st) i Holding;
                    waiters := waiters st |}
          else
            Some {| value := value st; phases := upd (phases st) i Waiting;
                    waiters := waiters st ++ [i] |}
      | _ => None
      end
  | Resume i k =>
      match nth_error (phases st) i with
      | Some Granted =>
          let st1 := {| value := value st; phases := phases st;
                        waiters := remove_waiter i (waiters st) |} in
          Some (set_phase (wake_loop k st1) i Holding)
      | _ => None
      end
  | Release i =>
      match nth_error (phases st) i with
      | Some Holding =>
          let st1 := {| value := value st + 1; phases := upd (phases st) i Finished;
                        waiters := waiters st |} in
          match wake_up_next st1 with Some st2 => Some st2 | None => Some st1 end
      | _ => None
      end
  end.

Fixpoint run (acts : list action) (st : state) : option state :=
  match acts with
  | [] => Some st
  | a :: r => match step a st with Some st' => run r st' | None => None end
  end.

(** [BATCH_MAX_CONCURRENCY = int(os.getenv("BATCH_MAX_CONCURRENCY", "3"))] *)
Definition BATCH_MAX_CONCURRENCY : nat := 3.

(** [asyncio.Semaphore(max(1, limit))] and [n] row tasks. *)
Definition batch_init (limit n : nat) : state :=
  {| value := Nat.max 1 limit; phases := repeat Fresh n; waiters := [] |}.

End Sem.

(* ------------------------------------------------------------------ *)
(** ** Template access (main.py): [normalize_template_name], the template
    check of the tailoring endpoints, [get_templates], [authenticate_user] *)
Module Access.

(** The [resume_templates] directory: whether it exists, which paths under
    it exist, and its entries (name, [is_file()]) in [iterdir] order, which
    is also the order [os.listdir] lists them in. *)
Record template_fs := {
  dir_exists : bool; path_exists : string -> bool; entries : list (string * bool)
}.

Definition normalize_template_name (fs : template_fs) (template_name : string) : string :=
  if String.eqb template_name EmptyString then template_name
  else if negb (dir_exists fs) then template_name
  else if path_exists fs template_name then template_name
  else
    match find (fun e => snd e && String.eqb (lower (fst e)) (lower template_name))
               (entries fs) with
    | Some e => fst e
    | None => template_name
    end.

(** [current_user.get("role", "user")] compared with ["admin"]. *)
Definition is_admin (user : json) : option bool :=
  let* role := py_get_default "role" (JStr "user") user in
  Some (py_eq role (JStr "admin")).

(** The check at the start of [/tailor-resume], [/tailor-resume-batch] and
    [/tailor-resume-batch-google-sheets]: [Some false] is the 403 response,
    [None] an exception ([.lower()] on a non-string [allowed_template]). *)
Definition template_permitted (user : json) (template : string) : option bool :=
  let* admin := is_admin user in
  if admin then Some true else
  let* allowed := py_get_default "allowed_template" JNull user in
  if truthy allowed then
    match allowed with
    | JStr a => Some (String.eqb (lower template) (lower a))
    | _ => None
    end
  else Some true.

(** [get_templates]: [None] is an exception ([os.listdir] on a missing
    directory, or a non-string [allowed_template] given to
    [normalize_template_name]). *)
Definition get_templates (fs : template_fs) (user : json) : option (list string) :=
  if negb (dir_exists fs) then None else
  let all_templates := map fst (entries fs) in
  let* admin := is_admin user in
  if admin then Some all_templates else
  let* allowed := py_get_default "allowed_template" JNull user in
  if truthy allowed then
    match allowed with
    | JStr a =>
        let normalized := normalize_template_name fs a in
        match find (fun t => String.eqb (lower t) (lower normalized)) all_templates with
        | Some t => Some [t]
        | None => Some []
        end
    | _ => None
    end
  else Some [].

(** [authenticate_user(name, password)] over the parsed [users.json]:
    [Some (Some u)] returns [u], [Some None] returns [False], [None] raises
    ([KeyError] or [TypeError]). *)
Fixpoint auth_go (name password : string) (users : list json) : option (option json) :=
  match users with
  | [] => Some None
  | u :: r =>
      let* un := py_get "username" u in
      if py_eq un (JStr name) then
        let* pw := py_get "password" u in
        if py_eq pw (JStr password) then Some (Some u) else auth_go name password r
      else auth_go name password r
  end.

Definition authenticate_user (users : json) (name password : string) : option (option json) :=
  match users with
  | JArr l => auth_go name password l
  (* iterating a dict or a string gives strings, which [user["username"]]
     rejects; an empty one gives no iteration *)
  | JObj [] | JStr EmptyString => Some None
  | _ => None
  end.

End Access.

(* ------------------------------------------------------------------ *)
(** ** Row folders and Google Sheets input (main.py) *)
Module Sheets.

Definition is_alnum (c : ascii) : bool := is_upper c || is_lower c || is_digit c.

Fixpoint filter_str (p : ascii -> bool) (s : string) : string :=
  match s with
  | EmptyString => EmptyString
  | String c r => if p c then String c (filter_str p r) else filter_str p r
  end.

Fixpoint map_str (f : ascii -> ascii) (s : string) : string :=
  match s with
  | EmptyString => EmptyString
  | String c r => String (f c) (map_str f r)
  end.

Fixpoint all_chars (f : ascii -> bool) (s : string) : bool :=
  match s with
  | EmptyString => true
  | String c r => f c && all_chars f r
  end.

(** Characters below 128, where [str.isalnum] and [is_alnum] agree. *)
Definition ascii_only (s : string) : bool := all_chars (fun c => Nat.ltb (nat_of_ascii c) 128) s.

(** The characters [safe_title] keeps. *)
Definition safe_char (c : ascii) : bool := is_alnum c || in_chars c "_-.".

(** The folder name both batch endpoints derive from a row's title. *)
Definition safe_title (job_title : string) : string :=
  let s := strip (filter_str (fun c => is_alnum c || in_chars c " -_.") job_title) in
  let s := map_str (fun c => if Ascii.eqb c " "%char then "_"%char else c) s in
  substring 0 100 (filter_str safe_char s).


(** [[a-zA-Z0-9-_]] *)
Definition is_id_char (c : ascii) : bool := is_alnum c || in_chars c "-_".

Fixpoint id_run (s : string) : string :=
  match s with
  | String c r => if is_id_char c then String c (id_run r) else EmptyString
  | EmptyString => EmptyString
  end.

(** [re.search(re.escape(lit) + r'([a-zA-Z0-9-_]+)', url).group(1)]: the
    leftmost occurrence of [lit] followed by an id character, and the
    maximal run of id characters after it. *)
Fixpoint search_id (lit s : string) : option string :=
  if starts_with lit s && negb (String.eqb (id_run (drop (String.length lit) s)) EmptyString)
  then Some (id_run (drop (String.length lit) s))
  else match s with
       | EmptyString => None
       | String _ r => search_id lit r
       end.

Definition extract_google_sheet_id (url : string) : option string :=
  match search_id "/spreadsheets/d/" url with
  | Some id => Some id
  | None =>
      match search_id "id=" url with
      | Some id => Some id
      | None => search_id "/d/" url
      end
  end.

(** What [requests.get(export_url)] with [raise_for_status()] gives: a
    [RequestException] with its message, or the CSV text as
    [csv.DictReader] reads it: per row its (key, value) pairs, a [None] key
    holding the extra fields of a long row and a [None] value standing for
    a field missing from a short one. *)
Inductive fetch := FetchError (msg : string) | FetchCsv (rows : list (list (option string * option string))).

Inductive sheet_result := SheetRows (rows : list (list (string * json))) | SheetError (msg : string).

(** [normalized_row]: keys stripped, values stripped ([''] for a missing
    one); [None] is the [AttributeError] of [None.strip()]. *)
Fixpoint normalize_row (acc : list (string * json)) (row : list (option string * option string))
  : option (list (string * json)) :=
  match row with
  | [] => Some acc
  | (Some k, v) :: r =>
      let v' := match v with Some s => if String.eqb s EmptyString then EmptyString else strip s
                             | None => EmptyString end in
      normalize_row (set_key (strip k) (JStr v') acc) r
  | (None, _) :: _ => None
  end.

(** The last key whose lower-case form is [name]. *)
Definition last_key (name : string) (keys : list string) : option string :=
  fold_left (fun acc k => if String.eqb (lower k) name then Some k else acc) keys None.

Definition is_question_key (k : string) : bool :=
  starts_with "question" (lower k) && negb (String.eqb (lower k) "question").

Definition str_value (k : string) (d : list (string * json)) : string :=
  match lookup k d with Some (JStr s) => s | _ => EmptyString end.

(** The row kept for a normalized row, if any. *)
Definition sheet_row (nr : list (string * json)) : option (list (string * json)) :=
  let keys := map fst nr in
  match last_key "title" keys, last_key "description" keys with
  | Some tk, Some dk =>
      let title := str_value tk nr in
      let description := str_value dk nr in
      if negb (String.eqb title EmptyString) && negb (String.eqb description EmptyString) then
        Some (fold_left
                (fun rd k =>
                   if is_question_key k then
                     let q := strip (str_value k nr) in
                     if String.eqb q EmptyString then rd else set_key k (JStr q) rd
                   else rd)
                keys [("Title", JStr title); ("Description", JStr description)])
      else None
  | _, _ => None
  end.

Fixpoint sheet_rows (rows : list (list (option string * option string)))
  : option (list (list (string * json))) :=
  match rows with
  | [] => Some []
  | row :: r =>
      let* nr := normalize_row [] row in
      let* rest := sheet_rows r in
      Some (match sheet_row nr with Some rd => rd :: rest | None => rest end)
  end.

Definition no_rows_msg : string :=
  "No valid rows found in Google Sheets. Make sure it has 'Title' and 'Description' columns with data.".

(** What a kept row looks like: a ['Title'] and a ['Description'], and
    every entry a ['Title'], a ['Description'] or a question column, with a
    non-empty string value. *)
Definition valid_row (rd : list (string * json)) : Prop :=
  lookup "Title" rd <> None /\ lookup "Description" rd <> None /\
  Forall (fun kv => (fst kv = "Title" \/ fst kv = "Description" \/ is_question_key (fst kv) = true) /\
                    exists s, snd kv = JStr s /\ s <> EmptyString) rd.

Definition fetch_google_sheet_content (sheet_url : string) (resp : fetch) : sheet_result :=
  match extract_google_sheet_id sheet_url with
  | None => SheetError "Invalid Google Sheets URL. Could not extract spreadsheet ID."
  | Some _ =>
      match resp with
      | FetchError m =>
          SheetError ("Failed to fetch Google Sheets content: " ^^ m ^^
                      ". Make sure the sheet is publicly shared (Anyone with the link can view).")
      | FetchCsv rows =>
          (* the [ValueError] for no rows is raised inside the [try] and
             caught by its [except Exception] *)
          match sheet_rows rows with
          | None => SheetError ("Error parsing Google Sheets: " ^^
                                "'NoneType' object has no attribute 'strip'")
          | Some [] => SheetError ("Error parsing Google Sheets: " ^^ no_rows_msg)
          | Some rs => SheetRows rs
          end
      end
  end.

End Sheets.

(* ------------------------------------------------------------------ *)
(** ** Pieces of [convert_json_to_markdown] (resume_tailor.py) *)
Module MdParts.
Import Pipeline.

(** The from/to dates of an experience's [period]. *)
Definition split_period (period : string) : string * string :=
  if contains "-" period then
    match split_once "-" period with
    | Some (a, b) => (strip a, strip b)
    | None => (period, EmptyString)
    end
  else (period, EmptyString).

(** The company name and the location in parentheses after it. *)
Definition split_company (company : string) : string * string :=
  if contains "(" company && contains ")" company then
    match split_once "(" company with
    | Some (a, b) => (strip a, strip (replace_all ")" EmptyString b))
    | None => (company, EmptyString)
    end
  else (company, EmptyString).

(** The [href] of a LinkedIn contact. *)
Definition linkedin_url (value : string) : string :=
  if negb (starts_with "http://" value) && negb (starts_with "https://" value) then
    if starts_with "www." value then "https://" ^^ value else "https://www." ^^ value
  else value.

End MdParts.

(* ------------------------------------------------------------------ *)
(** ** What the bold pattern [\*\*(.+?)\*\*] matches, in its own words,
    and the shape of a JSON document apart from its strings *)
Module BoldSpec.
Import Bold.

(** No character of [x] is a newline ([.] matches any other character). *)
Fixpoint no_newline (x : string) : bool :=
  match x with
  | EmptyString => true
  | String c r => negb (Ascii.eqb c nl) && no_newline r
  end.

(** The pattern matches at position [i] of [s]: [**], then a non-empty
    text [x] with no newline, then [**]. *)
Definition bold_match_at (s : string) (i : nat) : Prop :=
  exists x rest, drop i s = "**" ^^ x ^^ "**" ^^ rest /\
                 x <> EmptyString /\ no_newline x = true.

(** [x] followed by [**] and [q] is the shortest choice for the lazy
    [.+?]: no shorter non-empty text is already followed by [**]. *)
Definition shortest_span (x q : string) : Prop :=
  forall x' q', x' <> EmptyString -> String.length x' < String.length x ->
  x ^^ "**" ^^ q <> x' ^^ "**" ^^ q'.

(** The string values of a document, in order (keys are not values). *)
Fixpoint json_strings (v : json) : list string :=
  match v with
  | JObj d => flat_map (fun kv => json_strings (snd kv)) d
  | JArr l => flat_map json_strings l
  | JStr s => [s]
  | _ => []
  end.

(** The document with every string value blanked: its keys, its nesting and
    its non-string values. *)
Fixpoint json_shape (v : json) : json :=
  match v with
  | JObj d => JObj (map (fun kv => (fst kv, json_shape (snd kv))) d)
  | JArr l => JArr (map json_shape l)
  | JStr _ => JStr EmptyString
  | _ => v
  end.

End BoldSpec.

(* ================================================================== *)
(** * Proofs *)

(** ** Facts about the string and dict helpers *)
Module HelperFacts.

Lemma starts_with_app (s t : string) : starts_with s (s ^^ t) = true.
Proof.
  induction s as [|c s IH]; simpl; [reflexivity|].
  rewrite Ascii.eqb_refl, IH; reflexivity.
Qed.

Lemma contains_app_l (s t : string) : contains s (s ^^ t) = true.
Proof.
  destruct s as [|c s]; [destruct t; reflexivity|].
  simpl. rewrite Ascii.eqb_refl, starts_with_app; reflexivity.
Qed.

Lemma lower_app (s t : string) : lower (s ^^ t) = lower s ^^ lower t.
Proof. induction s as [|c s IH]; simpl; [reflexivity|]. rewrite IH; reflexivity. Qed.

Lemma set_key_lookup_same (k : string) (v : json) (d : list (string * json)) :
  lookup k d = Some v -> set_key k v d = d.
Proof.
  induction d as [|[k' v'] d IH]; simpl; [discriminate|].
  destruct (String.eqb k k') eqn:E.
  - intros H; inversion H; subst; apply String.eqb_eq in E; subst; reflexivity.
  - intros H; rewrite IH by exact H; reflexivity.
Qed.

End HelperFacts.

(** ** Career-progression enforcement *)
Module CareerProofs.
Import Career ResumeView HelperFacts.

Lemma has_marker_app (p rest : string) :
  In p markers -> has_marker (p ^^ rest) = true.
Proof.
  intros Hin. unfold has_marker. apply existsb_exists.
  exists p; split; [exact Hin|]. rewrite lower_app. apply contains_app_l.
Qed.

Lemma find_prefix_in (ps : list string) (t p : string) :
  find_prefix ps t = Some p -> In p ps.
Proof.
  induction ps as [|q ps IH]; simpl; [intros ?; discriminate|].
  destruct (contains (lower q) (lower t)).
  - intros H; inversion H; left; reflexivity.
  - intros H; right; apply IH, H.
Qed.

(** The first entry's new title always carries a seniority marker. *)
Lemma first_rule_marker (domain base t t' : string) :
  first_rule domain base t = Some t' -> has_marker t' = true.
Proof.
  unfold first_rule.
  destruct (has_marker t) eqn:Hm; cbn [negb].
  - destruct (contains (lower domain) (lower t)); cbn [negb]; [intros ?; discriminate|].
    destruct (find_prefix markers t) as [p|] eqn:Hp; [|intros ?; discriminate].
    intros H; injection H as <-.
    apply has_marker_app, (find_prefix_in _ _ _ Hp).
  - intros H; injection H as <-. apply (has_marker_app "Senior"); simpl; auto.
Qed.

Lemma experience_list_not_in (d : json) :
  py_in "experience" d = Some false -> experience_list d = None.
Proof.
  destruct d as [| | | | | fs]; simpl; try reflexivity; try discriminate.
  destruct (lookup "experience" fs); [discriminate|reflexivity].
Qed.

Lemma experience_list_get (d v : json) :
  py_get "experience" d = Some v ->
  experience_list d = match v with JArr l => Some l | _ => None end.
Proof.
  destruct d as [| | | | | fs]; simpl; try discriminate.
  intros H; rewrite H; reflexivity.
Qed.

Lemma py_set_get (d v : json) (l : list json) :
  py_get "experience" d = Some v ->
  py_set "experience" (JArr l) d = Some (with_experience d l).
Proof. destruct d; simpl; try discriminate. reflexivity. Qed.

(** The failing input of C1: the interior title "Senior Lead Developer"
    loses only "Senior" and keeps "Lead". *)
Theorem C1_interior_keeps_marker :
  enforce_career_progression
    (resume_with_titles ["Senior Developer"; "Senior Lead Developer"; "Developer"]) "Developer"
  = Some (resume_with_titles ["Senior Developer"; "Lead Developer"; "Developer"])
  /\ has_marker "Lead Developer" = true.
Proof. split; vm_compute; reflexivity. Qed.

(** C3 fails: a single entry "Developer" is promoted to "Senior Developer". *)
Lemma C3_single_entry_changed :
  enforce_career_progression (resume_with_titles ["Developer"]) EmptyString
  = Some (resume_with_titles ["Senior Developer"]).
Proof. vm_compute; reflexivity. Qed.

(** C3 (amended): a resume without a list of experience entries, or with an
    empty one, is returned unchanged; with exactly one entry only that
    entry's title may change, it then carries one of Senior, Lead,
    Principal, Staff, and it is "Senior <base title>" when the original
    title carried none. *)
Theorem C3_short_experience_frame (d : json) (job_domain : string) (d' : json) :
  enforce_career_progression d job_domain = Some d' ->
  (experience_list d = None -> d' = d) /\
  (experience_list d = Some [] -> d' = d) /\
  (forall e, experience_list d = Some [e] ->
     exists t, has_marker t = true /\ d' = with_experience d [set_title e t] /\
       forall t0, get_title e = Some t0 -> has_marker t0 = false ->
         t = "Senior " ^^ base_title (domain_of job_domain t0)).
Proof.
  unfold enforce_career_progression.
  destruct (py_in "experience" d) as [b|] eqn:Hin; [|intros ?; discriminate].
  destruct b; cbn [negb].
  2: { intros H; injection H as <-.
       rewrite (experience_list_not_in _ Hin).
       repeat split; intros; first [reflexivity | discriminate]. }
  destruct (py_get "experience" d) as [v|] eqn:Hg; [|intros ?; discriminate].
  rewrite (experience_list_get _ _ Hg).
  destruct v as [| | | | l |];
    try (intros H; injection H as <-; repeat split; intros; first [reflexivity | discriminate]).
  destruct l as [|e0 rest].
  { intros H; injection H as <-; repeat split; intros; first [reflexivity | discriminate]. }
  destruct (get_title e0) as [t0|] eqn:Ht0; [|intros ?; discriminate].
  unfold enforce_entries, update_first; rewrite Ht0.
  destruct rest as [|e1 rest].
  2: { intros _; repeat split; intros; discriminate. }
  intros H.
  destruct (first_rule (domain_of job_domain t0) (base_title (domain_of job_domain t0)) t0)
    as [t'|] eqn:Hfr; rewrite (py_set_get _ _ _ Hg) in H; injection H as <-;
    (repeat split; try (intros; discriminate)); intros e He; injection He as <-.
  - exists t'; repeat split.
    + eapply first_rule_marker; exact Hfr.
    + intros t1 Ht1 Hm; rewrite Ht0 in Ht1; injection Ht1 as <-.
      unfold first_rule in Hfr; rewrite Hm in Hfr; cbn [negb] in Hfr.
      injection Hfr as <-; reflexivity.
  - (* unchanged: the title had a marker, so the key is present *)
    unfold first_rule in Hfr.
    destruct (has_marker t0) eqn:Hm; cbn [negb] in Hfr; [|discriminate].
    exists t0; repeat split; [exact Hm| |].
    + destruct e0 as [| | | | | ed]; simpl in Ht0; try discriminate.
      destruct (lookup "title" ed) as [[| | | st | |]|] eqn:Hlt; try discriminate.
      * injection Ht0 as <-; simpl. rewrite (set_key_lookup_same _ _ _ Hlt). reflexivity.
      * injection Ht0 as <-. discriminate.
    + intros t1 Ht1 Hm1; rewrite Ht0 in Ht1; injection Ht1 as <-; congruence.
Qed.

(** The hypotheses of [C3_short_experience_frame] hold on a one-entry
    resume. *)
Lemma C3_short_experience_frame_witness :
  enforce_career_progression (resume_with_titles ["Developer"]) EmptyString
    = Some (resume_with_titles ["Senior Developer"]) /\
  exists t, has_marker t = true /\
    resume_with_titles ["Senior Developer"]
    = with_experience (resume_with_titles ["Developer"])
        [set_title (JObj [("title", JStr "Developer")]) t].
Proof.
  assert (H : enforce_career_progression (resume_with_titles ["Developer"]) EmptyString
              = Some (resume_with_titles ["Senior Developer"])) by (vm_compute; reflexivity).
  split; [exact H|].
  destruct (proj2 (proj2 (C3_short_experience_frame _ _ _ H))
              (JObj [("title", JStr "Developer")]) eq_refl) as [t [Ht [Hd _]]].
  exists t; split; [exact Ht | exact Hd].
Defined.

End CareerProofs.
(* ------------------------------------------------------------------ *)
(** * The verb-repetition repair *)
Module VerbProofs.
Import WordRe Verbs PostView.

(** C4 fails: "developed" occurs three times, its first alternative is
    "architected", which already occurs twice; the repair brings
    "architected" to three occurrences and never revisits it. *)
Theorem C4_repair_overshoots :
  fix_repetitive_verbs
    (highlights_doc ["Architected A"; "Architected B"; "Developed C"; "Developed D"; "Developed E"])
  = Some (highlights_doc ["Architected A"; "Architected B"; "Architected C"; "Developed D"; "Developed E"])
  /\ resume_word_count "developed"
       (highlights_doc ["Architected A"; "Architected B"; "Developed C"; "Developed D"; "Developed E"]) = 3
  /\ resume_word_count "architected"
       (highlights_doc ["Architected A"; "Architected B"; "Architected C"; "Developed D"; "Developed E"]) = 3.
Proof. repeat split; vm_compute; reflexivity. Qed.

Lemma dedup_go_length (seen : list string) (ws : list string) :
  length (dedup_go seen ws) = length ws.
Proof.
  revert seen; induction ws as [|w ws IH]; intros seen; simpl; [reflexivity|].
  destruct (_ && _); simpl; rewrite IH; reflexivity.
Qed.

Lemma dedup_go_nth (ws seen : list string) (j : nat) (w : string) :
  nth_error ws j = Some w ->
  nth_error (dedup_go seen ws) j =
  Some (if negb (String.eqb (clean w) EmptyString)
           && (existsb (String.eqb (clean w)) seen
               || existsb (String.eqb (clean w)) (map clean (firstn j ws)))
        then cap_like w (dup_alternative (clean w)) else w).
Proof.
  revert seen j; induction ws as [|w0 ws IH]; intros seen j Hj.
  - destruct j; discriminate.
  - destruct j as [|j]; simpl in Hj |- *.
    + injection Hj as <-. fold (clean w0). rewrite orb_false_r.
      destruct (_ && _); reflexivity.
    + fold (clean w0).
      destruct (negb (String.eqb (clean w0) EmptyString) && existsb (String.eqb (clean w0)) seen)
        eqn:Hrep; simpl; rewrite (IH _ _ Hj).
      * (* replaced: its clean form was seen already *)
        apply andb_true_iff in Hrep as [_ Hseen].
        destruct (String.eqb (clean w) (clean w0)) eqn:E; simpl.
        -- apply String.eqb_eq in E. rewrite E, Hseen. reflexivity.
        -- reflexivity.
      * cbn [existsb].
        destruct (String.eqb (clean w) (clean w0)), (existsb (String.eqb (clean w)) seen),
          (existsb (String.eqb (clean w)) (map clean (firstn j ws))); reflexivity.
Qed.

(** C10 fails: a repeated token made only of punctuation has an empty
    clean form and is kept. *)
Lemma C10_punctuation_kept :
  dedup_words ["Fast"; "-"; "cheap"; "-"; "done"] = ["Fast"; "-"; "cheap"; "-"; "done"]
  /\ clean "-" = EmptyString.
Proof. split; vm_compute; reflexivity. Qed.

(** C10 (amended): in the intra-string pass, the word at position [j] is
    replaced exactly when its punctuation-stripped, lower-cased form is
    non-empty and equals that of an earlier word of the same string; it
    becomes the first alternative of the duplicates table for that form, or
    "engineered" for any other form, capitalized when the word starts with
    an upper-case letter; every other word is kept, and the number of words
    is unchanged. *)
Theorem C10_duplicate_rule (ws : list string) (j : nat) (w : string) :
  nth_error ws j = Some w ->
  length (dedup_words ws) = length ws /\
  nth_error (dedup_words ws) j =
  Some (if negb (String.eqb (clean w) EmptyString)
           && existsb (String.eqb (clean w)) (map clean (firstn j ws))
        then cap_like w (dup_alternative (clean w)) else w).
Proof.
  intros Hj; split; [apply dedup_go_length|].
  unfold dedup_words; rewrite (dedup_go_nth _ _ _ _ Hj); reflexivity.
Qed.

(** The third word of "Built and built" is a repeat of the first. *)
Lemma C10_duplicate_rule_witness :
  nth_error (dedup_words ["Built"; "and"; "built"]) 2 = Some "architected".
Proof.
  destruct (C10_duplicate_rule ["Built"; "and"; "built"] 2 "built" eq_refl) as [_ H].
  rewrite H; vm_compute; reflexivity.
Defined.

End VerbProofs.
(* ------------------------------------------------------------------ *)
(** * Markdown-bold normalization and the post-processing pass *)
Module PostProofs.
Import WordRe Verbs Bold Post HelperFacts PostView.

Lemma contains_dstar_cons (c : ascii) (t : string) :
  contains dstar (String c t) =
  (Ascii.eqb "*"%char c && starts_with "*" t) || contains dstar t.
Proof. reflexivity. Qed.

(** The output of [bold_go] starts with a star only where its input does. *)
Lemma bold_go_head (k : nat) (r t : string) :
  bold_go k r = String "*"%char t -> exists r', r = String "*"%char r'.
Proof.
  destruct k as [|k]; [intros H; simpl in H; subst; eauto|].
  destruct r as [|c0 r0]; [discriminate|].
  intros H; cbn [bold_go] in H.
  destruct (starts_with dstar (String c0 r0));
    [destruct (drop 2 (String c0 r0)) as [|c1 r1];
     [|destruct (Ascii.eqb c1 nl); [|destruct (find_close r1) as [[x rest]|]]]|];
    first [discriminate H | injection H as Hc _; subst; eauto].
Qed.

Lemma bold_go_no_new (k : nat) (s : string) :
  contains dstar (bold_go k s) = true -> contains dstar s = true.
Proof.
  revert s; induction k as [|k IH]; intros s; [exact (fun H => H)|].
  destruct s as [|c r]; [discriminate|].
  change (contains dstar (String c r)) with (starts_with dstar (String c r) || contains dstar r).
  destruct (starts_with dstar (String c r)) eqn:Hs; [intros _; reflexivity|].
  cbn [bold_go]; rewrite Hs; cbn [orb].
  rewrite contains_dstar_cons; intros H; apply orb_true_iff in H as [H|H].
  - apply andb_true_iff in H as [Hc Ht].
    destruct (bold_go k r) as [|c' t] eqn:Hb; [discriminate|].
    cbn [starts_with] in Ht; apply andb_true_iff in Ht as [Hc' _].
    apply Ascii.eqb_eq in Hc'; subst c'.
    destruct (bold_go_head _ _ _ Hb) as [r' ->].
    apply Ascii.eqb_eq in Hc; subst c. discriminate Hs.
  - exact (IH _ H).
Qed.

Lemma bold_go_id (k : nat) (s : string) :
  contains dstar s = false -> bold_go k s = s.
Proof.
  revert s; induction k as [|k IH]; intros s Hs; [reflexivity|].
  destruct s as [|c r]; [reflexivity|].
  rewrite contains_dstar_cons in Hs; apply orb_false_iff in Hs as [H1 H2].
  assert (Hs : starts_with dstar (String c r) = false) by exact H1.
  cbn [bold_go]; rewrite Hs, (IH _ H2); reflexivity.
Qed.

(** C5 fails: a [**] with no closing partner stays. *)
Lemma C5_unpaired_stars :
  convert_markdown_bold_to_html (JObj [("summary", JStr "Cut costs 40%** overall")])
  = JObj [("summary", JStr "Cut costs 40%** overall")]
  /\ any_string (contains dstar) (JObj [("summary", JStr "Cut costs 40%** overall")]) = true.
Proof. split; vm_compute; reflexivity. Qed.

Lemma str_app_assoc (a b c : string) : (a ^^ b) ^^ c = a ^^ (b ^^ c).
Proof. induction a as [|x a IH]; simpl; [reflexivity|]; rewrite IH; reflexivity. Qed.

Lemma str_app_nil_r (a : string) : a ^^ EmptyString = a.
Proof. induction a as [|x a IH]; simpl; [reflexivity|]; rewrite IH; reflexivity. Qed.

Lemma str_length_app (a b : string) : String.length (a ^^ b) = String.length a + String.length b.
Proof. induction a as [|x a IH]; simpl; [reflexivity|]; rewrite IH; reflexivity. Qed.

Lemma rev_str_app (a b : string) : rev_str (a ^^ b) = rev_str b ^^ rev_str a.
Proof.
  induction a as [|x a IH]; simpl; [rewrite str_app_nil_r; reflexivity|].
  rewrite IH, str_app_assoc; reflexivity.
Qed.

Lemma rev_str_involutive (a : string) : rev_str (rev_str a) = a.
Proof.
  induction a as [|x a IH]; simpl; [reflexivity|].
  rewrite rev_str_app, IH; reflexivity.
Qed.

(** Stripping a prefix stops at the first kept character. *)
Lemma lstrip_app_kept (p : ascii -> bool) (a : string) (c : ascii) (b : string) :
  p c = false -> exists pre, lstrip_by p (a ^^ String c b) = pre ^^ String c b.
Proof.
  intros Hc; induction a as [|x a IH]; simpl.
  - rewrite Hc; exists EmptyString; reflexivity.
  - destruct (p x); [exact IH|exists (String x a); reflexivity].
Qed.

Lemma count_char_app (c : ascii) (a b : string) :
  count_char c (a ^^ b) = count_char c a + count_char c b.
Proof.
  induction a as [|x a IH]; simpl; [reflexivity|].
  rewrite IH; destruct (Ascii.eqb _ _); reflexivity.
Qed.

Lemma strip_country (s : string) :
  exists pre, strip (s ^^ ", Indonesia") = pre ^^ ", Indonesia".
Proof.
  unfold strip, strip_by.
  destruct (lstrip_app_kept is_space s ","%char " Indonesia" eq_refl) as [pre Hpre].
  rewrite Hpre, rev_str_app.
  assert (Hk : forall x, lstrip_by is_space (rev_str ", Indonesia" ^^ x)
                         = rev_str ", Indonesia" ^^ x) by (intros; reflexivity).
  rewrite Hk, <- rev_str_app, rev_str_involutive; exists pre; reflexivity.
Qed.

(** A location completed with the country passes [validate_address]. *)
Lemma validate_country (s : string) :
  validate_location (JStr (s ^^ ", Indonesia")) = Some true.
Proof.
  unfold validate_location.
  destruct (strip_country s) as [pre Hpre].
  assert (Ht : truthy (JStr (s ^^ ", Indonesia")) = true) by (destruct s; reflexivity).
  rewrite Ht; cbn [negb]; rewrite Hpre.
  assert (He : String.eqb (pre ^^ ", Indonesia") EmptyString = false) by (destruct pre; reflexivity).
  rewrite He.
  assert (Hc : Nat.ltb (comma_parts (s ^^ ", Indonesia")) 2 = false).
  { unfold comma_parts; rewrite count_char_app; apply Nat.ltb_ge; simpl; lia. }
  rewrite Hc.
  assert (Hl : Nat.ltb (String.length (pre ^^ ", Indonesia")) 5 = false).
  { apply Nat.ltb_ge; rewrite str_length_app; simpl; lia. }
  rewrite Hl; reflexivity.
Qed.

Lemma lookup_set_same (k : string) (v : json) (d : list (string * json)) :
  lookup k (set_key k v d) = Some v.
Proof.
  induction d as [|[k' v'] d IH]; simpl; [rewrite String.eqb_refl; reflexivity|].
  destruct (String.eqb k k') eqn:E; simpl; rewrite ?E; [reflexivity|exact IH].
Qed.

(** Once the location of a contact is valid, address repair leaves the
    document alone. *)
Lemma address_repair_fixed (fs cd : list (string * json)) (v : json) :
  validate_location v = Some true ->
  address_repair (JObj (set_key "contact" (JObj (set_key "location" v cd)) fs))
  = Some (JObj (set_key "contact" (JObj (set_key "location" v cd)) fs)).
Proof.
  intros Hv; unfold address_repair, py_in, py_get, py_get_default.
  rewrite !lookup_set_same; cbn [negb]; rewrite Hv; reflexivity.
Qed.

(** C2 fails: the post-processor is not idempotent.  The first run turns
    "self-starter" and "hard worker" into "proactive professional" and
    "dedicated professional"; the second run's duplicate-word pass then
    rewrites the repeated "professional". *)
Lemma C2_second_run_changes :
  post_process (fun l => l) EmptyString "Developer" []
    (JObj [("experience", JArr [JObj [("title", JStr "Senior Developer");
             ("highlights", JArr [JStr "self-starter and hard worker"])]])])
  = Some (JObj [("experience", JArr [JObj [("title", JStr "Senior Developer");
             ("highlights", JArr [JStr "proactive professional and dedicated professional"])]])])
  /\
  post_process (fun l => l) EmptyString "Developer" []
    (JObj [("experience", JArr [JObj [("title", JStr "Senior Developer");
             ("highlights", JArr [JStr "proactive professional and dedicated professional"])]])])
  = Some (JObj [("experience", JArr [JObj [("title", JStr "Senior Developer");
             ("highlights", JArr [JStr "proactive professional and dedicated engineered"])]])]).
Proof. split; vm_compute; reflexivity. Qed.

(** C2 (amended): running the whole post-processor twice can change the
    document again, but its address-repair step is idempotent: repairing the
    contact location of an already repaired document changes nothing. *)
Theorem C2_address_repair_idempotent (tr tr' : json) :
  address_repair tr = Some tr' -> address_repair tr' = Some tr'.
Proof.
  intros H; pose proof H as H0; unfold address_repair in H.
  destruct (py_in "contact" tr) as [b|] eqn:Hin; [|discriminate].
  destruct b; cbn [negb] in H; [|injection H as <-; exact H0].
  destruct (py_get "contact" tr) as [c|] eqn:Hc; [|discriminate].
  destruct (py_get_default "location" (JStr EmptyString) c) as [cur|] eqn:Hcur; [|discriminate].
  destruct (validate_location cur) as [valid|] eqn:Hv; [|discriminate].
  destruct valid; [injection H as <-; exact H0|].
  destruct tr as [| | | | | fs]; try discriminate Hc; cbn [py_get] in Hc.
  destruct c as [| | | | | cd]; try discriminate Hcur.
  destruct (truthy cur) eqn:Ht.
  - destruct cur as [| | | s | |]; try discriminate H.
    destruct (Nat.eqb (comma_parts s) 1);
      [|destruct (Nat.eqb (comma_parts s) 2);
        [destruct (negb (contains "Indonesia" s || contains "USA" s || contains "United States" s))|]];
      cbn [py_set] in H; injection H as <-;
      first [ apply address_repair_fixed, validate_country
            | rewrite (set_key_lookup_same _ _ _ Hc) in *; exact H0 ].
  - cbn [py_set] in H; injection H as <-.
    apply address_repair_fixed; vm_compute; reflexivity.
Qed.

(** A bare city is completed with the country, and a second repair keeps it. *)
Lemma C2_address_repair_idempotent_witness :
  address_repair (JObj [("contact", JObj [("location", JStr "Jakarta")])])
  = Some (JObj [("contact", JObj [("location", JStr "Jakarta, Indonesia")])]) /\
  address_repair (JObj [("contact", JObj [("location", JStr "Jakarta, Indonesia")])])
  = Some (JObj [("contact", JObj [("location", JStr "Jakarta, Indonesia")])]).
Proof.
  assert (H : address_repair (JObj [("contact", JObj [("location", JStr "Jakarta")])])
              = Some (JObj [("contact", JObj [("location", JStr "Jakarta, Indonesia")])]))
    by (vm_compute; reflexivity).
  split; [exact H | exact (C2_address_repair_idempotent _ _ H)].
Defined.

End PostProofs.

(* ------------------------------------------------------------------ *)
(** * Failure modes of the tailoring pipeline *)
Module TailorProofs.
Import Post Pipeline Tailor TailorView.




End TailorProofs.

(* ------------------------------------------------------------------ *)
Module GatewayProofs.
Import PyStr Gateway.

Lemma starts_with_lower (p s : string) :
  starts_with p s = true -> starts_with (lower p) (lower s) = true.
Proof.
  revert s; induction p as [|a p IH]; intros s H; [reflexivity|].
  destruct s as [|b s]; [discriminate H|].
  cbn [starts_with lower] in *.
  apply andb_true_iff in H as [Hab Hps].
  apply Ascii.eqb_eq in Hab; subst b.
  rewrite Ascii.eqb_refl; cbn [andb]; exact (IH s Hps).
Qed.

Lemma contains_lower (p s : string) :
  contains p s = true -> contains (lower p) (lower s) = true.
Proof.
  induction s as [|b s IH]; intros H; cbn [contains lower] in *.
  - apply orb_true_iff in H as [H|H]; [|discriminate H].
    change EmptyString with (lower EmptyString).
    rewrite (starts_with_lower _ _ H); reflexivity.
  - apply orb_true_iff in H as [H|H].
    + change (String (to_lower b) (lower s)) with (lower (String b s)).
      rewrite (starts_with_lower _ _ H); reflexivity.
    + rewrite (IH H), orb_true_r; reflexivity.
Qed.

Lemma starts_with_prefix (p q s : string) :
  starts_with (p ^^ q) s = true -> starts_with p s = true.
Proof.
  revert s; induction p as [|a p IH]; intros s H; [reflexivity|].
  destruct s as [|b s]; [discriminate H|].
  cbn [starts_with String.append] in *.
  apply andb_true_iff in H as [Hab Hps].
  rewrite Hab; exact (IH s Hps).
Qed.

Lemma contains_prefix (p q s : string) :
  contains (p ^^ q) s = true -> contains p s = true.
Proof.
  induction s as [|b s IH]; intros H; cbn [contains] in *;
    apply orb_true_iff in H as [H|H].
  - rewrite (starts_with_prefix _ _ _ H); reflexivity.
  - discriminate H.
  - rewrite (starts_with_prefix _ _ _ H); reflexivity.
  - rewrite (IH H), orb_true_r; reflexivity.
Qed.

(** C8: when Claude raises with a message containing
    "insufficient credit balance" and an OpenAI client is configured,
    [generate_content] calls OpenAI with the same prompt right after the
    Claude call, returns OpenAI's (non-empty) text, and leaves
    [credit_exhausted] true; the flag is reset at the start of every call, so
    a call in which Claude answers leaves it false whatever it was before. *)
Theorem C8_credit_fallback (g0 : gateway) (prompt msg t : string) (st : option Z) :
  has_claude g0 = true -> has_openai g0 = true ->
  contains "insufficient credit balance" msg = true ->
  String.eqb t EmptyString = false ->
  generate_content g0 prompt (ClaudeError msg st) (OpenAIContent t)
  = ({| has_claude := has_claude g0; has_openai := has_openai g0;
        credit_exhausted := true;
        calls := calls g0 ++ [(Claude, prompt); (OpenAI, prompt)] |}, Ok t)
  /\ (forall (b : string) (bs : list string) (o : openai_result),
        String.eqb b EmptyString = false ->
        generate_content g0 prompt (ClaudeContent (b :: bs)) o
        = ({| has_claude := has_claude g0; has_openai := has_openai g0;
              credit_exhausted := false; calls := calls g0 ++ [(Claude, prompt)] |}, Ok b)).
Proof.
  intros Hc Ho Hm Ht.
  assert (Hk : is_credit_error msg st = true).
  { unfold is_credit_error.
    assert (Hi : contains "insufficient" (lower msg) = true).
    { apply (contains_prefix "insufficient" " credit balance").
      change ("insufficient" ^^ " credit balance")
        with (lower "insufficient credit balance").
      exact (contains_lower _ _ Hm). }
    cbn [existsb credit_error_keywords]; rewrite Hi.
    rewrite !orb_true_r; reflexivity. }
  split.
  - unfold generate_content; cbn [has_claude with_flag]; rewrite Hc.
    cbv zeta; rewrite Hk.
    cbn [has_openai log_call with_flag]; rewrite Ho.
    unfold use_openai; rewrite Ht.
    unfold log_call, with_flag; cbn [has_claude has_openai credit_exhausted calls].
    rewrite Hc, Ho, <- app_assoc; reflexivity.
  - intros b bs o Hb.
    unfold generate_content; cbn [has_claude with_flag]; rewrite Hc.
    cbv zeta; rewrite Hb.
    unfold log_call, with_flag; cbn [has_claude has_openai credit_exhausted calls].
    rewrite Hc; reflexivity.
Qed.

(** The scenario: a gateway whose previous call had run out of credits. *)
Lemma C8_credit_fallback_witness :
  generate_content
    {| has_claude := true; has_openai := true; credit_exhausted := false; calls := [] |}
    "Tailor this resume"
    (ClaudeError "Error code: 400 - Your credit balance is too low (insufficient credit balance)" None)
    (OpenAIContent "{}")
  = ({| has_claude := true; has_openai := true; credit_exhausted := true;
        calls := [(Claude, "Tailor this resume"); (OpenAI, "Tailor this resume")] |}, Ok "{}").
Proof.
  refine (proj1 (C8_credit_fallback
    {| has_claude := true; has_openai := true; credit_exhausted := false; calls := [] |}
    "Tailor this resume"
    "Error code: 400 - Your credit balance is too low (insufficient credit balance)"
    "{}" None eq_refl eq_refl _ eq_refl)).
  vm_compute; reflexivity.
Defined.

End GatewayProofs.

(* ------------------------------------------------------------------ *)
Module BatchProofs.
Import Batch BatchDemo.

Lemma run_batch_app (l1 l2 : list (row * row_env)) :
  run_batch (l1 ++ l2)
  = (fst (run_batch l1) ++ fst (run_batch l2), snd (run_batch l1) ++ snd (run_batch l2)).
Proof. unfold run_batch; cbn [fst snd]; rewrite !flat_map_app; reflexivity. Qed.

(** The files of a row none of whose steps raises. *)
Lemma process_no_failure (r : row) (e : row_env) :
  no_failure e = true ->
  process_one_batch_job r e
  = ([resume_file r e]
     ++ (match e_cover e with CoverPath => [cover_file r] | _ => [] end)
     ++ (match questions r with [] => [] | _ => [question_file r] end), []).
Proof.
  unfold no_failure, process_one_batch_job, question_part.
  destruct (e_tailor e), (e_resume e), (e_cover e), (e_cover_files e), (e_questions e);
    intros H; try discriminate H;
    destruct (questions r); reflexivity.
Qed.

Lemma run_batch_no_failure (l : list (row * row_env)) :
  forallb (fun p => no_failure (snd p)) l = true -> snd (run_batch l) = [].
Proof.
  induction l as [|[r e] l IH]; intros H; [reflexivity|].
  cbn [forallb] in H; apply andb_true_iff in H as [He Hl].
  unfold run_batch in *; cbn [flat_map snd fst] in *.
  rewrite (process_no_failure r e He); cbn [snd app]; exact (IH Hl).
Qed.

(** C7: in a batch where one row's question step alone raises (its tailoring,
    resume, cover letter and file moves succeed) and no sibling row raises,
    the batch's files are the siblings' files in order with that row's resume
    and cover letter in its place, each sibling keeping its resume (and its
    cover letter and question PDF when it has them), and the batch's errors
    are exactly one RowError carrying the row's number and title. *)
Theorem C7_question_failure_isolated (pre post : list (row * row_env))
    (r : row) (e : row_env) (msg : string) :
  e_tailor e = Completes -> e_resume e = Completes -> e_cover e = CoverPath ->
  e_cover_files e = Completes -> questions r <> [] -> e_questions e = Fails msg ->
  forallb (fun p => no_failure (snd p)) (pre ++ post) = true ->
  run_batch (pre ++ (r, e) :: post)
  = (fst (run_batch pre) ++ [resume_file r e; cover_file r] ++ fst (run_batch post),
     [{| err_row := row_number r; err_title := job_title r;
         err_msg := "Failed to generate question PDF: " ^^ msg |}])
  /\ (forall p, In p (pre ++ post) ->
        fst (process_one_batch_job (fst p) (snd p))
        = [resume_file (fst p) (snd p)]
          ++ (match e_cover (snd p) with CoverPath => [cover_file (fst p)] | _ => [] end)
          ++ (match questions (fst p) with [] => [] | _ => [question_file (fst p)] end)).
Proof.
  intros Ht Hr Hc Hf Hq He Hok.
  rewrite forallb_app in Hok; apply andb_true_iff in Hok as [Hpre Hpost].
  split.
  - change ((r, e) :: post) with ([(r, e)] ++ post).
    assert (H1 : run_batch [(r, e)]
                 = ([resume_file r e; cover_file r],
                    [{| err_row := row_number r; err_title := job_title r;
                        err_msg := "Failed to generate question PDF: " ^^ msg |}])).
    { unfold run_batch; cbn [flat_map fst snd].
      unfold process_one_batch_job, question_part.
      rewrite Ht, Hr, Hc, Hf, He.
      destruct (questions r) as [|q qs]; [contradiction Hq; reflexivity|].
      reflexivity. }
    rewrite !run_batch_app, (run_batch_no_failure pre Hpre),
            (run_batch_no_failure post Hpost), H1.
    reflexivity.
  - intros p Hp.
    assert (Hn : no_failure (snd p) = true).
    { apply in_app_or in Hp as [Hp|Hp];
        [exact (proj1 (forallb_forall _ pre) Hpre p Hp)
        |exact (proj1 (forallb_forall _ post) Hpost p Hp)]. }
    rewrite (process_no_failure _ _ Hn); reflexivity.
Qed.

(** The scenario: five rows, only row 3's question step raises; the batch has
    ten files (a resume and a cover letter for every row) and one error. *)
Lemma C7_question_failure_isolated_witness :
  run_batch (demo_before ++ (row3, env3) :: demo_after)
  = (fst (run_batch demo_before) ++ [resume_file row3 env3; cover_file row3]
       ++ fst (run_batch demo_after),
     [{| err_row := 3; err_title := "Data Engineer";
         err_msg := "Failed to generate question PDF: rate limited" |}])
  /\ length (fst (run_batch (demo_before ++ (row3, env3) :: demo_after))) = 10
  /\ map gf_type (fst (run_batch (demo_before ++ (row3, env3) :: demo_after)))
     = ["resume"; "cover_letter"; "resume"; "cover_letter"; "resume"; "cover_letter";
        "resume"; "cover_letter"; "resume"; "cover_letter"].
Proof.
  destruct (C7_question_failure_isolated demo_before demo_after row3 env3 "rate limited"
              eq_refl eq_refl eq_refl eq_refl ltac:(discriminate) eq_refl eq_refl)
    as [H _].
  split; [exact H|].
  rewrite H; split; reflexivity.
Defined.

End BatchProofs.

(* ------------------------------------------------------------------ *)
Module SemProofs.
Import Sem.

(** Tasks granted or holding, plus the counter, make up the initial value. *)
Definition inv (L : nat) (st : state) : Prop :=
  value st + count_phase Granted (phases st) + count_phase Holding (phases st) = L.

Lemma count_upd (p : phase) (l : list phase) (i : nat) (q p' : phase) :
  nth_error l i = Some q ->
  count_phase p (upd l i p') + (if phase_eqb p q then 1 else 0)
  = count_phase p l + (if phase_eqb p p' then 1 else 0).
Proof.
  revert i; induction l as [|a l IH]; intros i H; [destruct i; discriminate H|].
  destruct i as [|i]; cbn [nth_error upd count_phase] in *.
  - injection H as <-; lia.
  - specialize (IH i H); lia.
Qed.

Lemma first_waiting_some (ph : list phase) (ws : list nat) (w : nat) :
  first_waiting ph ws = Some w -> nth_error ph w = Some Waiting.
Proof.
  induction ws as [|x ws IH]; intros H; cbn [first_waiting] in H; [discriminate H|].
  destruct (nth_error ph x) as [[]|] eqn:Hx; try exact (IH H).
  injection H as <-; exact Hx.
Qed.

Ltac count_step Hn p' :=
  pose proof (count_upd Granted _ _ _ p' Hn);
  pose proof (count_upd Holding _ _ _ p' Hn);
  cbn [phase_eqb] in *.

Lemma wake_up_next_inv (L : nat) (st st' : state) :
  inv L st -> 0 < value st -> wake_up_next st = Some st' -> inv L st'.
Proof.
  unfold inv, wake_up_next; intros Hi Hv H.
  destruct (first_waiting (phases st) (waiters st)) as [w|] eqn:Hw; [|discriminate H].
  injection H as <-; cbn [value phases].
  pose proof (first_waiting_some _ _ _ Hw) as Hn.
  count_step Hn Granted; lia.
Qed.

Lemma wake_loop_inv (L k : nat) (st : state) : inv L st -> inv L (wake_loop k st).
Proof.
  revert st; induction k as [|k IH]; intros st Hi; cbn [wake_loop]; [exact Hi|].
  destruct (Nat.ltb 0 (value st)) eqn:Hv; [|exact Hi].
  apply Nat.ltb_lt in Hv.
  destruct (wake_up_next st) as [st'|] eqn:Hw; [|exact Hi].
  exact (IH st' (wake_up_next_inv L st st' Hi Hv Hw)).
Qed.

Lemma step_inv (L : nat) (a : action) (st st' : state) :
  inv L st -> step a st = Some st' -> inv L st'.
Proof.
  unfold inv; intros Hi H; destruct a as [i|i k|i]; cbn [step] in H.
  - destruct (nth_error (phases st) i) as [[]|] eqn:Hn; try discriminate H.
    unfold locked in H.
    destruct (Nat.eqb (value st) 0) eqn:Hv0; cbn [negb orb] in H.
    + injection H as <-; cbn [value phases]; count_step Hn Waiting; lia.
    + apply Nat.eqb_neq in Hv0.
      destruct (waiters st); cbn [negb] in H; injection H as <-;
        cbn [value phases]; [count_step Hn Holding | count_step Hn Waiting]; lia.
  - destruct (nth_error (phases st) i) as [[]|] eqn:Hn; try discriminate H.
    injection H as <-.
    set (st1 := {| value := value st; phases := phases st;
                   waiters := remove_waiter i (waiters st) |}).
    assert (H1 : value st1 + count_phase Granted (phases st1)
                 + count_phase Holding (phases st1) = L) by exact Hi.
    pose proof (wake_loop_inv L k st1 H1) as H2; unfold inv in H2.
    set (st2 := wake_loop k st1) in *.
    (* the woken tasks are other tasks: [i] is still granted after the loop *)
    assert (Hn2 : nth_error (phases st2) i = Some Granted).
    { subst st2; clear - Hn.
      assert (G : forall k s, nth_error (phases s) i = Some Granted ->
                    nth_error (phases (wake_loop k s)) i = Some Granted).
      { induction k0 as [|k0 IH]; intros s Hs; cbn [wake_loop]; [exact Hs|].
        destruct (Nat.ltb 0 (value s)); [|exact Hs].
        unfold wake_up_next.
        destruct (first_waiting (phases s) (waiters s)) as [w|] eqn:Hw; [|exact Hs].
        apply IH; cbn [phases].
        pose proof (first_waiting_some _ _ _ Hw) as Hwn.
        clear - Hs Hwn.
        revert i w Hs Hwn; induction (phases s) as [|a l IHl];
          intros [|i] [|w] Hs Hwn; cbn [nth_error upd] in *; try discriminate;
          auto; congruence. }
      exact (G k st1 Hn). }
    unfold set_phase; cbn [value phases]; count_step Hn2 Holding; lia.
  - destruct (nth_error (phases st) i) as [[]|] eqn:Hn; try discriminate H.
    set (st1 := {| value := value st + 1; phases := upd (phases st) i Finished;
                   waiters := waiters st |}) in H.
    assert (H1 : inv L st1).
    { unfold inv; subst st1; cbn [value phases]; count_step Hn Finished; lia. }
    destruct (wake_up_next st1) as [st2|] eqn:Hw; injection H as <-.
    + exact (wake_up_next_inv L st1 st2 H1 ltac:(subst st1; cbn [value]; lia) Hw).
    + exact H1.
Qed.

Lemma run_inv (L : nat) (acts : list action) (st st' : state) :
  inv L st -> run acts st = Some st' -> inv L st'.
Proof.
  revert st; induction acts as [|a acts IH]; intros st Hi H; cbn [run] in H.
  - injection H as <-; exact Hi.
  - destruct (step a st) as [s|] eqn:Hs; [|discriminate H].
    exact (IH s (step_inv L a st s Hi Hs) H).
Qed.

Lemma count_repeat_fresh (p : phase) (n : nat) :
  p <> Fresh -> count_phase p (repeat Fresh n) = 0.
Proof.
  intros Hp; induction n as [|n IH]; [reflexivity|].
  cbn [repeat count_phase]; rewrite IH.
  destruct p; [contradiction Hp; reflexivity| reflexivity..].
Qed.

Lemma holding_bound (limit n : nat) (acts : list action) (st : state) :
  run acts (batch_init limit n) = Some st ->
  count_phase Holding (phases st) <= Nat.max 1 limit.
Proof.
  intros H.
  assert (H0 : inv (Nat.max 1 limit) (batch_init limit n)).
  { unfold inv, batch_init; cbn [value phases].
    rewrite !count_repeat_fresh by discriminate; lia. }
  pose proof (run_inv _ _ _ _ H0 H) as Hi; unfold inv in Hi; lia.
Qed.

(** C9: with [BATCH_MAX_CONCURRENCY] at its default 3, after any interleaving
    of the semaphore's steps for any number of row tasks, at most 3 tasks are
    inside their [async with sem] body. *)
Theorem C9_at_most_three_holding (n : nat) (acts : list action) (st : state) :
  run acts (batch_init BATCH_MAX_CONCURRENCY n) = Some st ->
  count_phase Holding (phases st) <= 3.
Proof. intros H; exact (holding_bound BATCH_MAX_CONCURRENCY n acts st H). Qed.

(** Ten rows: rows 1 to 3 enter, row 4 waits, row 1 leaves and row 4 is woken
    and enters; three rows hold the semaphore. *)
Lemma C9_at_most_three_holding_witness :
  run [Start 0; Start 1; Start 2; Start 3; Release 0; Resume 3 1]
      (batch_init BATCH_MAX_CONCURRENCY 10)
  = Some {| value := 0;
            phases := [Finished; Holding; Holding; Holding; Fresh; Fresh; Fresh; Fresh;
                       Fresh; Fresh];
            waiters := [] |}
  /\ count_phase Holding [Finished; Holding; Holding; Holding; Fresh; Fresh; Fresh; Fresh;
                          Fresh; Fresh] = 3
  /\ count_phase Holding [Finished; Holding; Holding; Holding; Fresh; Fresh; Fresh; Fresh;
                          Fresh; Fresh] <= 3.
Proof.
  assert (H : run [Start 0; Start 1; Start 2; Start 3; Release 0; Resume 3 1]
                (batch_init BATCH_MAX_CONCURRENCY 10)
              = Some {| value := 0;
                        phases := [Finished; Holding; Holding; Holding; Fresh; Fresh; Fresh;
                                   Fresh; Fresh; Fresh];
                        waiters := [] |}) by reflexivity.
  split; [exact H|]; split; [reflexivity|].
  exact (C9_at_most_three_holding 10 _ _ H).
Defined.

End SemProofs.

(* ------------------------------------------------------------------ *)
Module AccessProofs.
Import Access.

Lemma py_eq_str (v : json) (s : string) : py_eq v (JStr s) = true -> v = JStr s.
Proof.
  destruct v; cbn [py_eq]; try discriminate.
  intros H; apply String.eqb_eq in H; subst; reflexivity.
Qed.

Lemma normalize_template_name_lower_eq (fs : template_fs) (t : string) :
  lower (normalize_template_name fs t) = lower t.
Proof.
  unfold normalize_template_name.
  destruct (String.eqb t EmptyString); [reflexivity|].
  destruct (negb (dir_exists fs)); [reflexivity|].
  destruct (path_exists fs t); [reflexivity|].
  destruct (find _ (entries fs)) as [e|] eqn:Hf; [|reflexivity].
  apply find_some in Hf as [_ Hf]; apply andb_true_iff in Hf as [_ Hf].
  apply String.eqb_eq in Hf; exact Hf.
Qed.

(** [normalize_template_name] only ever changes the case of the name: the
    name it returns has the same lower-case form as the one it was given. *)
Theorem normalize_template_name_lower (fs : template_fs) (t : string) :
  lower (normalize_template_name fs t) = lower t.
Proof. exact (normalize_template_name_lower_eq fs t). Qed.

(** Every template [/templates] lists for a user passes the template check
    of the tailoring endpoints for that user, and a user who is not an admin
    is shown at most one template. *)
Theorem get_templates_permitted (fs : template_fs) (user : json) (ts : list string) :
  get_templates fs user = Some ts ->
  (forall t, In t ts -> template_permitted user t = Some true) /\
  (is_admin user = Some false -> length ts <= 1).
Proof.
  unfold get_templates, template_permitted; intros H.
  destruct (negb (dir_exists fs)); [discriminate H|].
  destruct (is_admin user) as [[|]|]; cbv beta iota in H |- *; [| |discriminate H].
  - injection H as <-; split; [reflexivity|discriminate].
  - destruct (py_get_default "allowed_template" JNull user) as [allowed|]; [|discriminate H].
    destruct (truthy allowed) eqn:Ht.
    + destruct allowed; try discriminate H.
      destruct (find _ (map fst (entries fs))) as [t|] eqn:Hf;
        injection H as <-; split; cbn [length]; auto.
      * intros t' [<-|[]].
        apply find_some in Hf as [_ Hf]; apply String.eqb_eq in Hf.
        rewrite normalize_template_name_lower_eq in Hf.
        rewrite Hf, String.eqb_refl; reflexivity.
      * intros t' [].
    + injection H as <-; split; [intros t []|cbn; lia].
Qed.

(** [authenticate_user] returns only a user of the list whose stored
    [username] and [password] are exactly the given ones (a plain-text
    comparison). *)
Theorem authenticate_user_sound (users : json) (name password : string) (u : json) :
  authenticate_user users name password = Some (Some u) ->
  py_get "username" u = Some (JStr name) /\ py_get "password" u = Some (JStr password) /\
  exists l, users = JArr l /\ In u l.
Proof.
  unfold authenticate_user.
  destruct users as [| | | [|c s] | l | [|kv d]]; try discriminate.
  intros H; enough (G : py_get "username" u = Some (JStr name) /\
                        py_get "password" u = Some (JStr password) /\ In u l)
    by (destruct G as [G1 [G2 G3]]; split; [exact G1|split; [exact G2|eauto]]).
  induction l as [|x l IH]; cbn [auth_go] in H; [discriminate|].
  destruct (py_get "username" x) as [un|] eqn:Hu; [|discriminate].
  destruct (py_eq un (JStr name)) eqn:Hn.
  - destruct (py_get "password" x) as [pw|] eqn:Hp; [|discriminate].
    destruct (py_eq pw (JStr password)) eqn:Hq.
    + injection H as <-.
      rewrite (py_eq_str _ _ Hn) in Hu; rewrite (py_eq_str _ _ Hq) in Hp.
      split; [exact Hu|split; [exact Hp|left; reflexivity]].
    + destruct (IH H) as [A [B C]]; split; [exact A|split; [exact B|right; exact C]].
  - destruct (IH H) as [A [B C]]; split; [exact A|split; [exact B|right; exact C]].
Qed.

Lemma get_templates_permitted_witness :
  get_templates {| dir_exists := true; path_exists := fun _ => false;
                   entries := [("Michael.json", true); ("Jane.json", true)] |}
                (JObj [("username", JStr "amy"); ("allowed_template", JStr "michael.json")])
  = Some ["Michael.json"] /\
  template_permitted (JObj [("username", JStr "amy"); ("allowed_template", JStr "michael.json")])
                     "Michael.json" = Some true.
Proof.
  assert (H : get_templates {| dir_exists := true; path_exists := fun _ => false;
                               entries := [("Michael.json", true); ("Jane.json", true)] |}
                (JObj [("username", JStr "amy"); ("allowed_template", JStr "michael.json")])
              = Some ["Michael.json"]) by (vm_compute; reflexivity).
  split; [exact H|].
  apply (proj1 (get_templates_permitted _ _ _ H)); left; reflexivity.
Defined.

Lemma authenticate_user_sound_witness :
  authenticate_user
    (JArr [JObj [("username", JStr "amy"); ("password", JStr "pw1")];
           JObj [("username", JStr "bob"); ("password", JStr "pw2")]]) "bob" "pw2"
  = Some (Some (JObj [("username", JStr "bob"); ("password", JStr "pw2")])) /\
  py_get "password" (JObj [("username", JStr "bob"); ("password", JStr "pw2")]) = Some (JStr "pw2").
Proof.
  assert (H : authenticate_user
    (JArr [JObj [("username", JStr "amy"); ("password", JStr "pw1")];
           JObj [("username", JStr "bob"); ("password", JStr "pw2")]]) "bob" "pw2"
    = Some (Some (JObj [("username", JStr "bob"); ("password", JStr "pw2")]))) by (vm_compute; reflexivity).
  split; [exact H|].
  exact (proj1 (proj2 (authenticate_user_sound _ _ _ _ H))).
Defined.

End AccessProofs.

(* ------------------------------------------------------------------ *)
Module SheetsProofs.
Import Sheets PostProofs.

Lemma all_chars_app (f : ascii -> bool) (a b : string) :
  all_chars f (a ^^ b) = all_chars f a && all_chars f b.
Proof.
  induction a as [|c a IH]; cbn [all_chars String.append]; [reflexivity|].
  rewrite IH, andb_assoc; reflexivity.
Qed.

Lemma all_chars_rev (f : ascii -> bool) (s : string) :
  all_chars f (rev_str s) = all_chars f s.
Proof.
  induction s as [|c s IH]; cbn [rev_str all_chars]; [reflexivity|].
  rewrite all_chars_app, IH; cbn [all_chars].
  rewrite andb_true_r, andb_comm; reflexivity.
Qed.

Lemma filter_str_all (p : ascii -> bool) (s : string) : all_chars p (filter_str p s) = true.
Proof.
  induction s as [|c s IH]; cbn [filter_str]; [reflexivity|].
  destruct (p c) eqn:Hc; [cbn [all_chars]; rewrite Hc|]; exact IH.
Qed.

Lemma filter_str_id (p : ascii -> bool) (s : string) :
  all_chars p s = true -> filter_str p s = s.
Proof.
  induction s as [|c s IH]; cbn [filter_str all_chars]; [reflexivity|].
  intros H; apply andb_true_iff in H as [Hc Hs]; rewrite Hc, (IH Hs); reflexivity.
Qed.

Lemma filter_str_mono (p q : ascii -> bool) (s : string) :
  (forall c, p c = true -> q c = true) -> all_chars p s = true -> all_chars q s = true.
Proof.
  intros Hpq; induction s as [|c s IH]; cbn [all_chars]; [reflexivity|].
  intros H; apply andb_true_iff in H as [Hc Hs]; rewrite (Hpq c Hc), (IH Hs); reflexivity.
Qed.

Lemma map_str_id (f : ascii -> ascii) (s : string) :
  all_chars (fun c => Ascii.eqb (f c) c) s = true -> map_str f s = s.
Proof.
  induction s as [|c s IH]; cbn [map_str all_chars]; [reflexivity|].
  intros H; apply andb_true_iff in H as [Hc Hs].
  apply Ascii.eqb_eq in Hc; rewrite Hc, (IH Hs); reflexivity.
Qed.

Lemma lstrip_by_id (p : ascii -> bool) (s : string) :
  all_chars (fun c => negb (p c)) s = true -> lstrip_by p s = s.
Proof.
  destruct s as [|c s]; cbn [lstrip_by all_chars]; [reflexivity|].
  intros H; apply andb_true_iff in H as [Hc _].
  destruct (p c); [discriminate Hc|reflexivity].
Qed.

Lemma strip_id (s : string) :
  all_chars (fun c => negb (is_space c)) s = true -> strip s = s.
Proof.
  intros H; unfold strip, strip_by.
  rewrite (lstrip_by_id _ s H), (lstrip_by_id _ (rev_str s)) by (rewrite all_chars_rev; exact H).
  apply rev_str_involutive.
Qed.

Lemma substring_all (f : ascii -> bool) (n : nat) (s : string) :
  all_chars f s = true -> all_chars f (substring 0 n s) = true.
Proof.
  revert s; induction n as [|n IH]; intros [|c s] H; cbn [substring all_chars] in *; auto.
  apply andb_true_iff in H as [Hc Hs]; rewrite Hc, (IH s Hs); reflexivity.
Qed.

Lemma substring_length (n : nat) (s : string) : String.length (substring 0 n s) <= n.
Proof.
  revert s; induction n as [|n IH]; intros [|c s]; cbn [substring String.length]; try lia.
  specialize (IH s); lia.
Qed.

Lemma substring_full (n : nat) (s : string) : String.length s <= n -> substring 0 n s = s.
Proof.
  revert s; induction n as [|n IH]; intros [|c s] H; cbn [substring String.length] in *;
    try reflexivity; try lia.
  rewrite IH by lia; reflexivity.
Qed.

Lemma safe_char_facts (c : ascii) :
  safe_char c = true ->
  (is_alnum c || in_chars c " -_.") = true /\ is_space c = false /\ Ascii.eqb c " "%char = false.
Proof.
  unfold safe_char; intros H; apply orb_true_iff in H as [H|H].
  - rewrite H; split; [reflexivity|].
    destruct (Ascii.eqb c " "%char) eqn:E; [apply Ascii.eqb_eq in E; subst c; discriminate H|].
    split; [|reflexivity].
    unfold is_alnum, is_upper, is_lower, is_digit in H; unfold is_space.
    set (n := nat_of_ascii c) in *.
    repeat rewrite orb_true_iff in H; repeat rewrite andb_true_iff in H;
      repeat rewrite Nat.leb_le in H.
    apply not_true_is_false; intros Hs.
    repeat rewrite orb_true_iff in Hs; repeat rewrite andb_true_iff in Hs;
      repeat rewrite Nat.leb_le in Hs; lia.
  - cbn [in_chars] in H.
    destruct (Ascii.eqb c "_"%char) eqn:E0; [apply Ascii.eqb_eq in E0; subst c; repeat split|].
    destruct (Ascii.eqb c "-"%char) eqn:E1; [apply Ascii.eqb_eq in E1; subst c; repeat split|].
    destruct (Ascii.eqb c "."%char) eqn:E2; [apply Ascii.eqb_eq in E2; subst c; repeat split|].
    discriminate H.
Qed.

(** For an ASCII title, the folder name the batch endpoints derive holds only
    letters, digits, ['_'], ['-'] and ['.'] (so no ['/'] and no space) and
    is at most 100 characters long. *)
Theorem safe_title_chars (job_title : string) :
  ascii_only job_title = true ->
  all_chars safe_char (safe_title job_title) = true /\
  String.length (safe_title job_title) <= 100.
Proof.
  intros _; unfold safe_title; split.
  - apply substring_all, filter_str_all.
  - apply substring_length.
Qed.

(** [safe_title] leaves alone a title of at most 100 characters made only of
    letters, digits, ['_'], ['-'] and ['.']: in particular ['..'] and ['.']
    come out unchanged, so the row's folder [built_resume_dir / safe_title] can
    be the parent of [built_resume_dir] or [built_resume_dir] itself. *)
Theorem safe_title_fixed (job_title : string) :
  all_chars safe_char job_title = true -> String.length job_title <= 100 ->
  safe_title job_title = job_title.
Proof.
  intros H Hl; unfold safe_title.
  assert (H1 : filter_str (fun c => is_alnum c || in_chars c " -_.") job_title = job_title).
  { apply filter_str_id, (filter_str_mono safe_char); [|exact H].
    intros c Hc; exact (proj1 (safe_char_facts c Hc)). }
  assert (H2 : strip job_title = job_title).
  { apply strip_id, (filter_str_mono safe_char); [|exact H].
    intros c Hc; rewrite (proj1 (proj2 (safe_char_facts c Hc))); reflexivity. }
  assert (H3 : map_str (fun c => if Ascii.eqb c " "%char then "_"%char else c) job_title = job_title).
  { apply map_str_id, (filter_str_mono safe_char); [|exact H].
    intros c Hc; rewrite (proj2 (proj2 (safe_char_facts c Hc))); apply Ascii.eqb_refl. }
  rewrite H1, H2, H3, (filter_str_id safe_char job_title H).
  apply substring_full; exact Hl.
Qed.

Lemma safe_title_chars_witness :
  ascii_only "Senior Dev / Ops (Remote)" = true /\
  safe_title "Senior Dev / Ops (Remote)" = "Senior_Dev__Ops_Remote" /\
  all_chars safe_char "Senior_Dev__Ops_Remote" = true.
Proof.
  split; [reflexivity|split; [vm_compute; reflexivity|]].
  exact (proj1 (safe_title_chars "Senior Dev / Ops (Remote)" eq_refl)).
Defined.

Lemma safe_title_fixed_witness :
  (all_chars safe_char ".." = true /\ String.length ".." <= 100) /\ safe_title ".." = "..".
Proof.
  split; [split; [reflexivity|cbn; lia]|].
  apply safe_title_fixed; [reflexivity|cbn; lia].
Defined.

End SheetsProofs.

(* ------------------------------------------------------------------ *)
Module SheetIdProofs.
Import Sheets SheetsProofs.

Lemma search_id_eq (lit s : string) :
  search_id lit s =
  if starts_with lit s && negb (String.eqb (id_run (drop (String.length lit) s)) EmptyString)
  then Some (id_run (drop (String.length lit) s))
  else match s with EmptyString => None | String _ r => search_id lit r end.
Proof. destruct s; reflexivity. Qed.

Lemma starts_with_self (p s : string) : starts_with p (p ^^ s) = true.
Proof. induction p as [|a p IH]; cbn; [reflexivity|rewrite Ascii.eqb_refl; exact IH]. Qed.

Lemma drop_self (p s : string) : drop (String.length p) (p ^^ s) = s.
Proof. induction p as [|a p IH]; [reflexivity|exact IH]. Qed.

Lemma id_run_chars (s : string) : all_chars is_id_char (id_run s) = true.
Proof.
  induction s as [|c s IH]; cbn [id_run]; [reflexivity|].
  destruct (is_id_char c) eqn:Hc; [cbn [all_chars]; rewrite Hc, IH|]; reflexivity.
Qed.

Lemma id_run_app (id rest : string) :
  all_chars is_id_char id = true ->
  match rest with String c _ => is_id_char c = false | EmptyString => True end ->
  id_run (id ^^ rest) = id.
Proof.
  intros Hid Hr; induction id as [|c id IH]; cbn [String.append id_run].
  - destruct rest as [|c r]; cbn [id_run]; [reflexivity|rewrite Hr; reflexivity].
  - cbn [all_chars] in Hid; apply andb_true_iff in Hid as [Hc Hid].
    rewrite Hc, (IH Hid); reflexivity.
Qed.

Lemma search_id_skip (lit : string) (c : ascii) (s : string) :
  starts_with lit (String c s) = false -> search_id lit (String c s) = search_id lit s.
Proof. intros H; rewrite search_id_eq, H; reflexivity. Qed.

Lemma search_id_hit (lit s : string) :
  id_run s <> EmptyString -> search_id lit (lit ^^ s) = Some (id_run s).
Proof.
  intros H; rewrite search_id_eq, starts_with_self, drop_self.
  destruct (String.eqb_spec (id_run s) EmptyString) as [E|_]; [contradiction|reflexivity].
Qed.

Lemma search_id_some (lit s id : string) :
  search_id lit s = Some id -> id <> EmptyString /\ all_chars is_id_char id = true.
Proof.
  induction s as [|c s IH]; rewrite search_id_eq;
    destruct (starts_with lit _ && _) eqn:E; intros H; try discriminate H; auto.
  - apply andb_true_iff in E as [_ E]; injection H as <-.
    destruct (String.eqb_spec (id_run (drop (String.length lit) EmptyString)) EmptyString);
      [discriminate E|split; [assumption|apply id_run_chars]].
  - apply andb_true_iff in E as [_ E]; injection H as <-.
    destruct (String.eqb_spec (id_run (drop (String.length lit) (String c s))) EmptyString);
      [discriminate E|split; [assumption|apply id_run_chars]].
Qed.

(** Whatever ID [extract_google_sheet_id] returns is non-empty and made only
    of letters, digits, ['-'] and ['_']. *)
Theorem extract_google_sheet_id_chars (url id : string) :
  extract_google_sheet_id url = Some id ->
  id <> EmptyString /\ all_chars is_id_char id = true.
Proof.
  unfold extract_google_sheet_id.
  destruct (search_id "/spreadsheets/d/" url) eqn:E1.
  - intros H; injection H as <-; exact (search_id_some _ _ _ E1).
  - destruct (search_id "id=" url) eqn:E2.
    + intros H; injection H as <-; exact (search_id_some _ _ _ E2).
    + apply search_id_some.
Qed.

(** For a standard sharing link, the spreadsheet ID comes back exactly: the
    longest run of ID characters after ['/spreadsheets/d/'], whatever
    follows it ([/edit#gid=0], [?usp=sharing], nothing). *)
Theorem extract_google_sheet_id_url (id rest : string) :
  id <> EmptyString -> all_chars is_id_char id = true ->
  match rest with String c _ => is_id_char c = false | EmptyString => True end ->
  extract_google_sheet_id ("https://docs.google.com/spreadsheets/d/" ^^ id ^^ rest) = Some id.
Proof.
  intros Hne Hid Hr; unfold extract_google_sheet_id.
  assert (Hrun : id_run (id ^^ rest) = id) by exact (id_run_app id rest Hid Hr).
  assert (Hs : search_id "/spreadsheets/d/" ("https://docs.google.com/spreadsheets/d/" ^^ id ^^ rest)
               = Some id).
  { set (X := id ^^ rest).
    change ("https://docs.google.com/spreadsheets/d/" ^^ X)
      with ("https://docs.google.com" ^^ ("/spreadsheets/d/" ^^ X)).
    cbn [String.append].
    do 23 (rewrite search_id_skip by reflexivity).
    change (search_id "/spreadsheets/d/" ("/spreadsheets/d/" ^^ X) = Some id).
    rewrite search_id_hit; unfold X; rewrite Hrun; [reflexivity|exact Hne]. }
  rewrite Hs; reflexivity.
Qed.

Lemma extract_google_sheet_id_chars_witness :
  extract_google_sheet_id "https://example.com/file/d/a_B-9/view" = Some "a_B-9" /\
  "a_B-9" <> EmptyString /\ all_chars is_id_char "a_B-9" = true.
Proof.
  assert (H : extract_google_sheet_id "https://example.com/file/d/a_B-9/view" = Some "a_B-9")
    by (vm_compute; reflexivity).
  split; [exact H|exact (extract_google_sheet_id_chars _ _ H)].
Defined.

Lemma extract_google_sheet_id_url_witness :
  extract_google_sheet_id "https://docs.google.com/spreadsheets/d/1AbC-d_9/edit#gid=0"
  = Some "1AbC-d_9".
Proof.
  exact (extract_google_sheet_id_url "1AbC-d_9" "/edit#gid=0"
           ltac:(discriminate) eq_refl eq_refl).
Defined.

End SheetIdProofs.

(* ------------------------------------------------------------------ *)
Module SheetRowProofs.
Import Sheets.

Lemma lookup_set_key_other (k k2 : string) (v : json) (d : list (string * json)) :
  k2 <> k -> lookup k2 (set_key k v d) = lookup k2 d.
Proof.
  intros Hne; induction d as [|[k' v'] d IH]; cbn [set_key lookup].
  - destruct (String.eqb_spec k2 k); [contradiction|reflexivity].
  - destruct (String.eqb_spec k k') as [<-|_]; cbn [lookup].
    + destruct (String.eqb_spec k2 k); [contradiction|reflexivity].
    + rewrite IH; reflexivity.
Qed.

Lemma Forall_set_key (Q : string * json -> Prop) (k : string) (v : json) (d : list (string * json)) :
  Forall Q d -> Q (k, v) -> Forall Q (set_key k v d).
Proof.
  intros Hd Hq; induction Hd as [|[k' v'] d Hkv Hd IH]; cbn [set_key].
  - constructor; [exact Hq|constructor].
  - destruct (String.eqb_spec k k') as [<-|_]; constructor; auto.
Qed.

Lemma question_key_not_fixed (k : string) :
  is_question_key k = true -> k <> "Title" /\ k <> "Description".
Proof. intros H; split; intros ->; discriminate H. Qed.

Lemma fold_questions_valid (nr : list (string * json)) (keys : list string) (rd : list (string * json)) :
  valid_row rd ->
  valid_row
    (fold_left
       (fun rd k =>
          if is_question_key k then
            let q := strip (str_value k nr) in
            if String.eqb q EmptyString then rd else set_key k (JStr q) rd
          else rd)
       keys rd).
Proof.
  revert rd; induction keys as [|k keys IH]; intros rd Hrd; cbn [fold_left]; [exact Hrd|].
  apply IH; cbv zeta.
  destruct (is_question_key k) eqn:Hq; [|exact Hrd].
  destruct (String.eqb_spec (strip (str_value k nr)) EmptyString) as [_|Hne]; [exact Hrd|].
  destruct (question_key_not_fixed k Hq) as [Ht Hd].
  destruct Hrd as (H1 & H2 & H3); split; [|split].
  - rewrite lookup_set_key_other by congruence; exact H1.
  - rewrite lookup_set_key_other by congruence; exact H2.
  - apply Forall_set_key; [exact H3|].
    split; [right; right; exact Hq|exists (strip (str_value k nr)); split; [reflexivity|exact Hne]].
Qed.

Lemma sheet_row_valid (nr rd : list (string * json)) :
  sheet_row nr = Some rd -> valid_row rd.
Proof.
  unfold sheet_row; cbv zeta.
  destruct (last_key "title" (map fst nr)) as [tk|]; [|discriminate].
  destruct (last_key "description" (map fst nr)) as [dk|]; [|discriminate].
  destruct (String.eqb_spec (str_value tk nr) EmptyString) as [_|Ht]; [discriminate|].
  destruct (String.eqb_spec (str_value dk nr) EmptyString) as [_|Hd]; [discriminate|].
  cbn [negb andb]; intros H; injection H as <-.
  apply fold_questions_valid.
  split; [discriminate|split; [discriminate|]].
  constructor; [split; [left; reflexivity|eexists; split; [reflexivity|exact Ht]]|].
  constructor; [split; [right; left; reflexivity|eexists; split; [reflexivity|exact Hd]]|].
  constructor.
Qed.

Lemma sheet_rows_valid (rows : list (list (option string * option string))) (rs : list (list (string * json))) :
  sheet_rows rows = Some rs -> Forall valid_row rs.
Proof.
  revert rs; induction rows as [|row rows IH]; intros rs H; cbn [sheet_rows] in H.
  - injection H as <-; constructor.
  - destruct (normalize_row [] row) as [nr|]; [|discriminate H].
    destruct (sheet_rows rows) as [rest|]; [|discriminate H].
    injection H as <-.
    destruct (sheet_row nr) as [rd|] eqn:E; [constructor; [exact (sheet_row_valid nr rd E)|]|];
      apply IH; reflexivity.
Qed.

(** When [fetch_google_sheet_content] returns rows, there is at least one,
    and each has a ['Title'] and a ['Description'] and otherwise only
    question columns, every value a non-empty string. *)
Theorem fetch_google_sheet_rows_valid (sheet_url : string) (resp : fetch) (rs : list (list (string * json))) :
  fetch_google_sheet_content sheet_url resp = SheetRows rs ->
  rs <> [] /\ Forall valid_row rs.
Proof.
  unfold fetch_google_sheet_content.
  destruct (extract_google_sheet_id sheet_url); [|discriminate].
  destruct resp as [m|rows]; [discriminate|].
  destruct (sheet_rows rows) as [[|rd rs']|] eqn:E; try discriminate.
  intros H; injection H as <-; split; [discriminate|exact (sheet_rows_valid rows _ E)].
Qed.

(** A row whose key is [None] (a line with more fields than the header)
    makes the whole sheet fail with the [None.strip()] error, whatever the
    other rows hold. *)
Theorem fetch_google_sheet_long_row (sheet_url : string) (rows_before rows_after : list (list (option string * option string)))
    (row : list (option string * option string)) (v : option string) (extra : list (option string * option string)) :
  extract_google_sheet_id sheet_url <> None ->
  Forall (fun r => normalize_row [] r <> None) rows_before ->
  Forall (fun kv => fst kv <> None) row ->
  fetch_google_sheet_content sheet_url (FetchCsv (rows_before ++ (row ++ (None, v) :: extra) :: rows_after))
  = SheetError ("Error parsing Google Sheets: " ^^ "'NoneType' object has no attribute 'strip'").
Proof.
  intros Hid Hb Hr; unfold fetch_google_sheet_content.
  destruct (extract_google_sheet_id sheet_url); [|contradiction].
  assert (Hn : forall acc, normalize_row acc (row ++ (None, v) :: extra) = None).
  { induction Hr as [|[[k|] w] row Hk Hr IH]; intros acc; [reflexivity| |contradiction].
    exact (IH _). }
  assert (Hs : sheet_rows (rows_before ++ (row ++ (None, v) :: extra) :: rows_after) = None).
  { induction Hb as [|r rows Hr0 Hb IH]; cbn [app sheet_rows].
    - rewrite Hn; reflexivity.
    - destruct (normalize_row [] r); [|contradiction]; rewrite IH; reflexivity. }
  rewrite Hs; reflexivity.
Qed.

Lemma fetch_google_sheet_long_row_witness :
  fetch_google_sheet_content "https://docs.google.com/spreadsheets/d/abc/edit"
    (FetchCsv ([[(Some "Title", Some "Dev"); (Some "Description", Some "Build")]] ++
               ([(Some "Title", Some "Ops")] ++ (None, Some "x") :: []) :: []))
  = SheetError ("Error parsing Google Sheets: " ^^ "'NoneType' object has no attribute 'strip'").
Proof.
  apply fetch_google_sheet_long_row.
  - discriminate.
  - constructor; [discriminate|constructor].
  - constructor; [discriminate|constructor].
Defined.

Lemma fetch_google_sheet_rows_valid_witness :
  exists rs, fetch_google_sheet_content "https://docs.google.com/spreadsheets/d/abc/edit"
    (FetchCsv [[(Some " Title ", Some " Dev "); (Some "Description", Some "Build");
                (Some "Question 1", Some " Why? "); (Some "Notes", Some "n")]]) = SheetRows rs /\
  rs <> [] /\ Forall valid_row rs.
Proof.
  eexists; split; [vm_compute; reflexivity|].
  apply (fetch_google_sheet_rows_valid "https://docs.google.com/spreadsheets/d/abc/edit"
           (FetchCsv [[(Some " Title ", Some " Dev "); (Some "Description", Some "Build");
                       (Some "Question 1", Some " Why? "); (Some "Notes", Some "n")]])).
  vm_compute; reflexivity.
Defined.

End SheetRowProofs.

(* ------------------------------------------------------------------ *)
Module CheckProofs.
Import Post Checks.

(** [validate_address] accepts exactly the contacts that are dicts whose
    ['location'] is a string with at least one comma and at least five
    characters once stripped; everything else is rejected with a message
    (or raises, for a non-string location). *)
Theorem validate_address_accepts (contact : json) :
  validate_address contact = Some (true, EmptyString) <->
  exists s, py_get_default "location" (JStr EmptyString) contact = Some (JStr s) /\
            1 <= count_char ","%char s /\ 5 <= String.length (strip s).
Proof.
  unfold validate_address; split.
  - destruct (py_get_default "location" (JStr EmptyString) contact) as [loc|]; cbv beta iota;
      [|discriminate].
    destruct (truthy loc); cbn [negb]; [|discriminate].
    destruct loc as [| | |s| |]; try discriminate.
    destruct (String.eqb (strip s) EmptyString); [discriminate|].
    unfold comma_parts; destruct (Nat.ltb_spec (S (count_char ","%char s)) 2); [discriminate|].
    destruct (Nat.ltb_spec (String.length (strip s)) 5); [discriminate|].
    intros _; exists s; split; [reflexivity|lia].
  - intros (s & Hs & Hc & Hl); rewrite Hs; cbv beta iota.
    assert (Hne : strip s <> EmptyString) by (intros E; rewrite E in Hl; cbn in Hl; lia).
    assert (Hs0 : s <> EmptyString) by (intros ->; apply Hne; reflexivity).
    cbn [truthy]; destruct (String.eqb_spec s EmptyString) as [|_]; [contradiction|]; cbn [negb].
    destruct (String.eqb_spec (strip s) EmptyString) as [|_]; [contradiction|].
    unfold comma_parts; destruct (Nat.ltb_spec (S (count_char ","%char s)) 2); [lia|].
    destruct (Nat.ltb_spec (String.length (strip s)) 5); [lia|reflexivity].
Qed.

(** A job description asking to ['relocate to'] a place sets both
    [requires_address] and [relocation_required]. *)
Theorem extract_address_relocate_to (job_description : string) :
  contains "relocate to" (lower job_description) = true ->
  requires_address (extract_address_requirements job_description) = true /\
  relocation_required (extract_address_requirements job_description) = true.
Proof.
  intros H; cbn [extract_address_requirements requires_address relocation_required existsb].
  rewrite H.
  rewrite (GatewayProofs.contains_prefix "relocate" " to" (lower job_description) H).
  rewrite !orb_true_r; split; reflexivity.
Qed.

Lemma extract_address_relocate_to_witness :
  contains "relocate to" (lower "Candidates must Relocate to Berlin.") = true /\
  requires_address (extract_address_requirements "Candidates must Relocate to Berlin.") = true /\
  relocation_required (extract_address_requirements "Candidates must Relocate to Berlin.") = true.
Proof.
  split; [vm_compute; reflexivity|].
  apply extract_address_relocate_to; vm_compute; reflexivity.
Defined.

Lemma validate_address_accepts_witness :
  validate_address (JObj [("location", JStr "Berlin, Germany")]) = Some (true, EmptyString).
Proof.
  apply validate_address_accepts; exists "Berlin, Germany"; split; [reflexivity|].
  vm_compute; split; lia.
Defined.

Lemma contains_empty (s : string) : contains EmptyString s = true.
Proof. destruct s; reflexivity. Qed.

Lemma titles_match_hit (j : string) (pre post : list json) (e : json) :
  Forall (fun x => title_matches j x <> None) pre ->
  title_matches j e = Some true ->
  titles_match j (pre ++ e :: post) = Some true.
Proof.
  intros Hpre He; induction Hpre as [|x pre Hx Hpre IH]; cbn [app titles_match].
  - rewrite He; reflexivity.
  - destruct (title_matches j x) as [[|]|]; cbv beta iota; [reflexivity|exact IH|contradiction].
Qed.

(** An experience entry with no title (or an empty one) counts as a match
    for every non-empty job title, since [''] is contained in any string:
    [job_title_in_resume] answers [True] once the loop reaches it. *)
Theorem job_title_in_resume_untitled (job_title s : string) (resume_data : json)
    (pre post : list json) (ed : list (string * json)) :
  job_title <> EmptyString ->
  py_get_default "summary" (JStr EmptyString) resume_data = Some (JStr s) ->
  py_get_default "experience" (JArr []) resume_data = Some (JArr (pre ++ JObj ed :: post)) ->
  Forall (fun x => title_matches (lower job_title) x <> None) pre ->
  py_get_default "title" (JStr EmptyString) (JObj ed) = Some (JStr EmptyString) ->
  job_title_in_resume job_title resume_data = Some true.
Proof.
  intros Hj Hs He Hpre Ht; unfold job_title_in_resume.
  destruct (String.eqb_spec job_title EmptyString) as [|_]; [contradiction|].
  rewrite Hs; cbv beta iota.
  destruct (contains (lower job_title) (lower s)); [reflexivity|].
  rewrite He; cbv beta iota.
  apply titles_match_hit; [exact Hpre|].
  unfold title_matches; rewrite Ht; cbv beta iota.
  change (lower EmptyString) with EmptyString.
  rewrite (contains_empty (lower job_title)), orb_true_r; reflexivity.
Qed.

Lemma job_title_in_resume_untitled_witness :
  job_title_in_resume "Data Scientist"
    (JObj [("summary", JStr "Backend engineer");
           ("experience", JArr [JObj [("title", JStr "Chef")]; JObj [("company", JStr "Acme")]])])
  = Some true.
Proof.
  apply (job_title_in_resume_untitled "Data Scientist" "Backend engineer" _
           [JObj [("title", JStr "Chef")]] [] [("company", JStr "Acme")]).
  - discriminate.
  - reflexivity.
  - reflexivity.
  - constructor; [vm_compute; discriminate|constructor].
  - reflexivity.
Defined.

End CheckProofs.

(* ------------------------------------------------------------------ *)
Module MdProofs.
Import Pipeline MdParts.

Lemma split_once_char (c : ascii) (a b : string) :
  contains (String c EmptyString) a = false ->
  split_once (String c EmptyString) (a ^^ String c b) = Some (a, b).
Proof.
  induction a as [|d a IH]; intros H; cbn [String.append split_once].
  - cbn [starts_with]; rewrite Ascii.eqb_refl; reflexivity.
  - cbn [contains starts_with] in H; cbn [starts_with].
    rewrite andb_true_r in *.
    apply orb_false_iff in H as [Hcd Ha].
    rewrite Hcd, (IH Ha); reflexivity.
Qed.

Lemma contains_app_r (n a b : string) : contains n b = true -> contains n (a ^^ b) = true.
Proof.
  intros H; induction a as [|d a IH]; [exact H|].
  cbn [String.append contains]; rewrite IH, orb_true_r; reflexivity.
Qed.

Lemma contains_char_here (c : ascii) (b : string) : contains (String c EmptyString) (String c b) = true.
Proof. cbn; rewrite Ascii.eqb_refl; reflexivity. Qed.

(** An experience [period] is cut at its first ['-']: both sides come back
    stripped, and any later ['-'] stays in the [to] date. *)
Theorem split_period_first_dash (a b : string) :
  contains "-" a = false ->
  split_period (a ^^ "-" ^^ b) = (strip a, strip b).
Proof.
  intros H; unfold split_period.
  change ("-" ^^ b) with (String "-"%char b).
  rewrite (contains_app_r "-" a (String "-"%char b) (contains_char_here "-"%char b)).
  rewrite (split_once_char "-"%char a b H); reflexivity.
Qed.

Lemma split_period_first_dash_witness :
  split_period "2019-01 - 2021-03" = ("2019", "01 - 2021-03").
Proof.
  exact (split_period_first_dash "2019" "01 - 2021-03" eq_refl).
Defined.

Lemma replace_close_paren (f : nat) (b : string) :
  contains ")" b = false -> S (String.length b) <= f ->
  replace_go f ")" EmptyString (b ^^ ")") = b.
Proof.
  revert f; induction b as [|d b IH]; intros [|f] H Hf; cbn [String.length] in Hf; try lia.
  - destruct f; reflexivity.
  - cbn [contains starts_with] in H; rewrite andb_true_r in H.
    apply orb_false_iff in H as [Hd Hb].
    cbn [String.append replace_go starts_with]; rewrite andb_true_r, Hd.
    rewrite (IH f Hb) by lia; reflexivity.
Qed.

(** A company written [Name (Place)] is split into the stripped name and
    the stripped place, when the name has no ['('] and the place no
    [')']. *)
Theorem split_company_parens (name place : string) :
  contains "(" name = false -> contains ")" place = false ->
  split_company (name ^^ "(" ^^ place ^^ ")") = (strip name, strip place).
Proof.
  intros Hn Hp; unfold split_company.
  change ("(" ^^ place ^^ ")") with (String "("%char (place ^^ ")")).
  rewrite (contains_app_r "(" name _ (contains_char_here "("%char _)).
  rewrite (contains_app_r ")" name _), andb_true_r.
  2:{ apply (contains_app_r ")" "(" _), (contains_app_r ")" place ")"), (contains_char_here ")"%char). }
  rewrite (split_once_char "("%char name (place ^^ ")") Hn).
  unfold replace_all; rewrite replace_close_paren; [reflexivity|exact Hp|].
  rewrite PostProofs.str_length_app; cbn [String.length]; lia.
Qed.

Lemma split_company_parens_witness :
  split_company "Acme Corp (Berlin, Germany)" = ("Acme Corp", "Berlin, Germany").
Proof.
  exact (split_company_parens "Acme Corp " "Berlin, Germany" eq_refl eq_refl).
Defined.

(** The LinkedIn link always gets a scheme: the [href] starts with
    ['http://'] or ['https://']. *)
Theorem linkedin_url_scheme (value : string) :
  starts_with "http://" (linkedin_url value) || starts_with "https://" (linkedin_url value) = true.
Proof.
  unfold linkedin_url.
  destruct (starts_with "http://" value) eqn:E1; cbn [negb andb]; [rewrite E1; reflexivity|].
  destruct (starts_with "https://" value) eqn:E2; cbn [negb andb]; [rewrite E2, orb_true_r; reflexivity|].
  destruct (starts_with "www." value).
  - rewrite (SheetIdProofs.starts_with_self "https://" value), orb_true_r; reflexivity.
  - change ("https://www." ^^ value) with ("https://" ^^ ("www." ^^ value)).
    rewrite (SheetIdProofs.starts_with_self "https://"), orb_true_r; reflexivity.
Qed.

End MdProofs.

(* ------------------------------------------------------------------ *)
Module GatewayMoreProofs.
Import PyStr Gateway.

(** What one [generate_content] call does to the gateway: the clients are
    untouched; Claude is called once when configured; OpenAI is called once
    exactly when it is configured and Claude gave no non-empty text (for any
    Claude failure, credit-related or not); and [credit_exhausted] ends up
    true exactly when Claude raised an error classified as a credit error. *)
Theorem generate_content_effects (g0 : gateway) (prompt : string)
    (c : claude_result) (o : openai_result) :
  let claude_text := match c with
                     | ClaudeContent (b :: _) => negb (String.eqb b EmptyString)
                     | _ => false end in
  fst (generate_content g0 prompt c o)
  = {| has_claude := has_claude g0; has_openai := has_openai g0;
       credit_exhausted :=
         has_claude g0 && match c with ClaudeError m st => is_credit_error m st | _ => false end;
       calls := calls g0
                ++ (if has_claude g0 then [(Claude, prompt)] else [])
                ++ (if has_openai g0 && negb (has_claude g0 && claude_text)
                    then [(OpenAI, prompt)] else []) |}.
Proof.
  cbv zeta.
  destruct g0 as [hc ho ce cs]; cbn [has_claude has_openai calls].
  unfold generate_content, use_openai, log_call, with_flag;
    cbn [has_claude has_openai credit_exhausted calls].
  destruct hc, ho; cbn [andb negb app]; rewrite ?app_nil_r;
    destruct c as [[|b bs]|m st]; cbv zeta;
    try destruct (String.eqb b EmptyString) eqn:Hb;
    try destruct (is_credit_error m st) eqn:Hk;
    destruct o as [t| |m']; try destruct (String.eqb t EmptyString);
    cbn [fst has_claude has_openai credit_exhausted calls andb negb];
    rewrite <- ?app_assoc; try reflexivity.
Qed.

Lemma use_openai_result (g : gateway) (prompt : string) (o : openai_result) :
  (forall t, snd (use_openai g prompt o) = Ok t -> t <> EmptyString) /\
  (forall m, snd (use_openai g prompt o) = Exn m -> starts_with "OpenAI API error: " m = true).
Proof.
  unfold use_openai; destruct o as [t| |m']; cbn [snd].
  - destruct (String.eqb_spec t EmptyString); cbn [snd]; split; intros x H; try discriminate H.
    + injection H as <-; reflexivity.
    + injection H as <-; assumption.
  - split; intros x H; [discriminate H|injection H as <-; reflexivity].
  - split; intros x H; [discriminate H|injection H as <-].
    exact (SheetIdProofs.starts_with_self "OpenAI API error: " m').
Qed.

(** [generate_content] never returns an empty text. *)
Theorem generate_content_nonempty (g0 : gateway) (prompt : string)
    (c : claude_result) (o : openai_result) (t : string) :
  snd (generate_content g0 prompt c o) = Ok t -> t <> EmptyString.
Proof.
  unfold generate_content; cbn [has_claude has_openai with_flag log_call].
  destruct (has_claude g0); [|destruct (has_openai g0);
    [apply use_openai_result|intros H; discriminate H]].
  destruct c as [[|b bs]|m st]; cbv zeta.
  - destruct (has_openai g0); [apply use_openai_result|intros H; discriminate H].
  - destruct (String.eqb_spec b EmptyString).
    + destruct (has_openai g0); [apply use_openai_result|intros H; discriminate H].
    + intros H; injection H as <-; assumption.
  - destruct (is_credit_error m st); cbn [has_openai with_flag];
      (destruct (has_openai g0); [apply use_openai_result|intros H; discriminate H]).
Qed.

(** With an OpenAI client configured, every error [generate_content]
    raises is OpenAI's, prefixed [OpenAI API error: ]: Claude's own error
    message is never surfaced. *)
Theorem generate_content_openai_error (g0 : gateway) (prompt : string)
    (c : claude_result) (o : openai_result) (m : string) :
  has_openai g0 = true ->
  snd (generate_content g0 prompt c o) = Exn m ->
  starts_with "OpenAI API error: " m = true.
Proof.
  intros Ho; unfold generate_content; cbn [has_claude has_openai with_flag log_call].
  rewrite Ho.
  destruct (has_claude g0); [|apply use_openai_result].
  destruct c as [[|b bs]|m0 st]; cbv zeta.
  - apply use_openai_result.
  - destruct (String.eqb b EmptyString); [apply use_openai_result|intros H; discriminate H].
  - destruct (is_credit_error m0 st); apply use_openai_result.
Qed.

Lemma generate_content_nonempty_witness :
  snd (generate_content
         {| has_claude := true; has_openai := false; credit_exhausted := true; calls := [] |}
         "p" (ClaudeContent ["{}"; "x"]) OpenAINoChoices) = Ok "{}" /\ "{}" <> EmptyString.
Proof.
  assert (H : snd (generate_content
         {| has_claude := true; has_openai := false; credit_exhausted := true; calls := [] |}
         "p" (ClaudeContent ["{}"; "x"]) OpenAINoChoices) = Ok "{}") by reflexivity.
  split; [exact H|exact (generate_content_nonempty _ _ _ _ _ H)].
Defined.

Lemma generate_content_openai_error_witness :
  snd (generate_content
         {| has_claude := true; has_openai := true; credit_exhausted := false; calls := [] |}
         "p" (ClaudeError "overloaded" (Some 529%Z)) (OpenAIError "rate limited"))
  = Exn "OpenAI API error: rate limited" /\
  starts_with "OpenAI API error: " "OpenAI API error: rate limited" = true.
Proof.
  assert (H : snd (generate_content
         {| has_claude := true; has_openai := true; credit_exhausted := false; calls := [] |}
         "p" (ClaudeError "overloaded" (Some 529%Z)) (OpenAIError "rate limited"))
  = Exn "OpenAI API error: rate limited") by (vm_compute; reflexivity).
  split; [exact H|refine (generate_content_openai_error _ _ _ _ _ _ H); reflexivity].
Defined.

End GatewayMoreProofs.

(* ------------------------------------------------------------------ *)
Module BatchMoreProofs.
Import Batch.

Lemma question_part_shape (r : row) (e : row_env) (files : list gfile) :
  (exists extra, fst (question_part r e files) = files ++ extra /\
                 Forall (fun f => gf_title f = job_title r /\ gf_folder f = safe_title r) extra) /\
  length (snd (question_part r e files)) <= 1 /\
  Forall (fun x => err_row x = row_number r /\ err_title x = job_title r) (snd (question_part r e files)).
Proof.
  unfold question_part.
  destruct (questions r); [|destruct (e_questions e)]; cbn [fst snd length].
  - split; [exists []; rewrite app_nil_r; split; [reflexivity|constructor]|split; [lia|constructor]].
  - split; [exists [question_file r]; split; [reflexivity|repeat constructor]|split; [lia|constructor]].
  - split; [exists []; rewrite app_nil_r; split; [reflexivity|constructor]|split; [lia|repeat constructor]].
Qed.

(** One row of a batch gives at most one error, tagged with the row's
    number and title; its files all carry the row's title and folder, and
    when there are any the first is the resume PDF. *)
Theorem process_one_batch_job_shape (r : row) (e : row_env) :
  let '(files, errs) := process_one_batch_job r e in
  length errs <= 1 /\
  Forall (fun x => err_row x = row_number r /\ err_title x = job_title r) errs /\
  Forall (fun f => gf_title f = job_title r /\ gf_folder f = safe_title r) files /\
  match files with [] => True | f :: _ => f = resume_file r e end.
Proof.
  unfold process_one_batch_job.
  destruct (e_tailor e); [|cbn; repeat split; repeat constructor].
  destruct (e_resume e); [|cbn; repeat split; repeat constructor].
  destruct (e_cover e);
    [cbn; repeat split; repeat constructor
    | |destruct (e_cover_files e); [|cbn; repeat split; repeat constructor]];
    match goal with
    | |- context [question_part r e ?fs] =>
        destruct (question_part_shape r e fs) as [[extra [Hf He]] [Hl Hr]];
        destruct (question_part r e fs) as [files errs]; cbn [fst snd] in *; subst files
    end;
    (split; [exact Hl|split; [exact Hr|split]]); cbn [app];
    try reflexivity;
    repeat constructor; try (apply Forall_app; split; [repeat constructor|exact He]);
    exact He.
Qed.

(** Over a whole batch there are at most as many errors as rows, and at
    most three files (resume, cover letter, questions) per row. *)
Theorem run_batch_bounds (rows : list (row * row_env)) :
  length (snd (run_batch rows)) <= length rows /\
  length (fst (run_batch rows)) <= 3 * length rows.
Proof.
  unfold run_batch; cbn [fst snd].
  induction rows as [|[r e] rows [IH1 IH2]]; cbn [flat_map length fst snd]; [lia|].
  rewrite !length_app.
  assert (H : length (snd (process_one_batch_job r e)) <= 1 /\
              length (fst (process_one_batch_job r e)) <= 3).
  { unfold process_one_batch_job, question_part.
    destruct (e_tailor e), (e_resume e), (e_cover e), (e_cover_files e), (e_questions e),
      (questions r); cbn [fst snd length app]; lia. }
  lia.
Qed.

End BatchMoreProofs.

(* ------------------------------------------------------------------ *)
Module SemMoreProofs.
Import Sem SemProofs.

(** Every queued future belongs to a waiting or granted task. *)
Definition queued_ok (st : state) : Prop :=
  forall w, In w (waiters st) ->
  nth_error (phases st) w = Some Waiting \/ nth_error (phases st) w = Some Granted.

(** Every waiting task has its future queued. *)
Definition waiting_queued (st : state) : Prop :=
  forall i, nth_error (phases st) i = Some Waiting -> In i (waiters st).

Definition some_phase (p : phase) (st : state) : Prop :=
  exists i, nth_error (phases st) i = Some p.

(** A waiting task is never left with a free permit and nobody to wake it. *)
Definition not_stranded (st : state) : Prop :=
  some_phase Waiting st -> value st = 0 \/ some_phase Granted st.

Definition good (st : state) : Prop :=
  queued_ok st /\ waiting_queued st /\ NoDup (waiters st) /\ not_stranded st.

Lemma nth_upd_same (l : list phase) (i : nat) (p q : phase) :
  nth_error l i = Some q -> nth_error (upd l i p) i = Some p.
Proof.
  revert i; induction l as [|a l IH]; intros [|i] H; cbn [nth_error upd] in *;
    try discriminate H; [reflexivity|exact (IH i H)].
Qed.

Lemma nth_upd_other (l : list phase) (i j : nat) (p : phase) :
  j <> i -> nth_error (upd l i p) j = nth_error l j.
Proof.
  revert i j; induction l as [|a l IH]; intros [|i] [|j] H; cbn [nth_error upd];
    try reflexivity; try contradiction.
  apply IH; congruence.
Qed.

Lemma first_waiting_in (ph : list phase) (ws : list nat) (w : nat) :
  first_waiting ph ws = Some w -> In w ws.
Proof.
  induction ws as [|x ws IH]; intros H; cbn [first_waiting] in H; [discriminate H|].
  destruct (nth_error ph x) as [[]|]; try (right; exact (IH H)).
  injection H as <-; left; reflexivity.
Qed.

Lemma first_waiting_none (ph : list phase) (ws : list nat) :
  first_waiting ph ws = None -> forall w, In w ws -> nth_error ph w <> Some Waiting.
Proof.
  induction ws as [|x ws IH]; intros H w Hin; [destruct Hin|].
  cbn [first_waiting] in H.
  destruct Hin as [<-|Hin]; destruct (nth_error ph x) as [[]|] eqn:E;
    try discriminate H; try congruence; exact (IH H w Hin).
Qed.

Lemma wake_up_next_good (st st' : state) :
  queued_ok st -> waiting_queued st -> wake_up_next st = Some st' ->
  queued_ok st' /\ waiting_queued st' /\ waiters st' = waiters st /\
  (exists w, nth_error (phases st) w = Some Waiting /\ nth_error (phases st') w = Some Granted) /\
  (forall j, nth_error (phases st) j = Some Granted -> nth_error (phases st') j = Some Granted).
Proof.
  intros H1 H2; unfold wake_up_next.
  destruct (first_waiting (phases st) (waiters st)) as [w|] eqn:Hw; [|discriminate].
  intros H; injection H as <-.
  pose proof (first_waiting_some _ _ _ Hw) as Hn.
  split; [|split; [|split; [reflexivity|split]]]; cbn [phases waiters].
  - intros x Hx; cbn [waiters phases] in *.
    destruct (Nat.eq_dec x w) as [->|Hne].
    + right; exact (nth_upd_same _ _ _ _ Hn).
    + rewrite nth_upd_other by exact Hne; exact (H1 x Hx).
  - intros j Hj; cbn [waiters phases] in *.
    destruct (Nat.eq_dec j w) as [->|Hne].
    + rewrite (nth_upd_same _ _ _ _ Hn) in Hj; discriminate Hj.
    + rewrite nth_upd_other in Hj by exact Hne; exact (H2 j Hj).
  - exists w; split; [exact Hn|exact (nth_upd_same _ _ _ _ Hn)].
  - intros j Hj; destruct (Nat.eq_dec j w) as [->|Hne]; [congruence|].
    rewrite nth_upd_other by exact Hne; exact Hj.
Qed.

Lemma wake_loop_good (k : nat) (st : state) :
  queued_ok st -> waiting_queued st ->
  queued_ok (wake_loop k st) /\ waiting_queued (wake_loop k st) /\
  waiters (wake_loop k st) = waiters st /\
  (forall j, nth_error (phases st) j = Some Granted ->
             nth_error (phases (wake_loop k st)) j = Some Granted).
Proof.
  revert st; induction k as [|k IH]; intros st H1 H2; cbn [wake_loop];
    [repeat split; auto|].
  destruct (Nat.ltb 0 (value st)); [|repeat split; auto].
  destruct (wake_up_next st) as [st'|] eqn:Hw; [|repeat split; auto].
  destruct (wake_up_next_good st st' H1 H2 Hw) as (V1 & V2 & Vw & _ & Vg).
  destruct (IH st' V1 V2) as (U1 & U2 & Uw & Ug).
  split; [exact U1|split; [exact U2|split; [congruence|]]].
  intros j Hj; exact (Ug j (Vg j Hj)).
Qed.

Lemma wake_loop_outcome (k : nat) (st : state) :
  1 <= k -> queued_ok st -> waiting_queued st ->
  value (wake_loop k st) = 0 \/
  (forall j, nth_error (phases (wake_loop k st)) j <> Some Waiting) \/
  (exists j, nth_error (phases st) j = Some Waiting /\
             nth_error (phases (wake_loop k st)) j = Some Granted).
Proof.
  destruct k as [|k]; [lia|]; intros _ H1 H2; cbn [wake_loop].
  destruct (Nat.ltb_spec 0 (value st)) as [Hv|Hv]; [|left; lia].
  destruct (wake_up_next st) as [st'|] eqn:Hw.
  - right; right.
    destruct (wake_up_next_good st st' H1 H2 Hw) as (V1 & V2 & _ & [w [Hw1 Hw2]] & _).
    exists w; split; [exact Hw1|].
    exact (proj2 (proj2 (proj2 (wake_loop_good k st' V1 V2))) w Hw2).
  - right; left; intros j Hj.
    unfold wake_up_next in Hw.
    destruct (first_waiting (phases st) (waiters st)) eqn:Hf; [discriminate Hw|].
    exact (first_waiting_none _ _ Hf j (H2 j Hj) Hj).
Qed.

Lemma remove_waiter_in (i x : nat) (ws : list nat) : In x (remove_waiter i ws) -> In x ws.
Proof.
  unfold remove_waiter; induction ws as [|w ws IH]; simpl; [auto|].
  destruct (Nat.eqb w i); [auto|]; intros [<-|H]; auto.
Qed.

Lemma remove_waiter_keep (i x : nat) (ws : list nat) :
  In x ws -> x <> i -> In x (remove_waiter i ws).
Proof.
  unfold remove_waiter; induction ws as [|w ws IH]; simpl; [auto|].
  intros [<-|H] Hne; destruct (Nat.eqb_spec w i); subst; try contradiction; simpl; auto.
Qed.

Lemma remove_waiter_nodup (i : nat) (ws : list nat) :
  NoDup ws -> NoDup (remove_waiter i ws) /\ ~ In i (remove_waiter i ws).
Proof.
  intros H; induction H as [|w ws Hw Hws IH]; [split; [constructor|intros []]|].
  pose proof (remove_waiter_in i) as Hin.
  unfold remove_waiter in *; simpl.
  destruct (Nat.eqb_spec w i) as [<-|Hne]; [split; assumption|].
  destruct IH as [IH1 IH2]; split.
  - constructor; [intros Hx; exact (Hw (Hin w ws Hx))|exact IH1].
  - intros [E|E]; [exact (Hne E)|exact (IH2 E)].
Qed.

Lemma nodup_snoc (ws : list nat) (i : nat) : NoDup ws -> ~ In i ws -> NoDup (ws ++ [i]).
Proof.
  intros H; induction H as [|x ws Hx Hws IH]; intros Hi; cbn [app].
  - constructor; [intros []|constructor].
  - constructor.
    + intros Hin; apply in_app_or in Hin as [Hin|[<-|[]]]; [exact (Hx Hin)|apply Hi; left; reflexivity].
    + apply IH; intros Hin; apply Hi; right; exact Hin.
Qed.

Lemma step_good (a : action) (st st' : state) :
  match a with Resume _ k => 1 <= k | _ => True end ->
  good st -> step a st = Some st' -> good st'.
Proof.
  unfold good; intros Hk (H1 & H2 & H3 & HP) H.
  destruct a as [i|i k|i]; cbn [step] in H.
  - (* Start *)
    destruct (nth_error (phases st) i) as [[]|] eqn:Hn; try discriminate H.
    assert (Hni : ~ In i (waiters st))
      by (intros Hin; destruct (H1 i Hin) as [E|E]; rewrite Hn in E; discriminate E).
    destruct (locked st) eqn:Hl; cbn [negb] in H; injection H as <-.
    + split; [|split; [|split]]; cbn [waiters phases value].
      * intros x Hx; cbn [waiters phases] in *.
        apply in_app_or in Hx as [Hx|[<-|[]]].
        -- rewrite nth_upd_other by (intros ->; contradiction); exact (H1 x Hx).
        -- left; exact (nth_upd_same _ _ _ _ Hn).
      * intros j Hj; cbn [waiters phases] in *; apply in_or_app.
        destruct (Nat.eq_dec j i) as [->|Hne]; [right; left; reflexivity|].
        left; rewrite nth_upd_other in Hj by exact Hne; exact (H2 j Hj).
      * exact (nodup_snoc _ _ H3 Hni).
      * intros _; unfold locked in Hl; apply orb_true_iff in Hl as [Hv|Hw].
        -- left; cbn [value]; apply Nat.eqb_eq; exact Hv.
        -- assert (Hex : exists x, In x (waiters st))
             by (destruct (waiters st) as [|x ws]; [discriminate Hw|exists x; left; reflexivity]).
           destruct Hex as [x Hx].
           assert (Hxi : x <> i) by (intros ->; contradiction).
           destruct (H1 x Hx) as [E|E].
           ++ destruct (HP (ex_intro _ x E)) as [Hv|[j Hj]]; [left; exact Hv|right].
              exists j; cbn [phases].
              rewrite nth_upd_other; [exact Hj|intros ->; rewrite Hn in Hj; discriminate Hj].
           ++ right; exists x; cbn [phases]; rewrite nth_upd_other by exact Hxi; exact E.
    + unfold locked in Hl; apply orb_false_iff in Hl as [_ Hw].
      assert (Hnil : waiters st = []) by (destruct (waiters st); [reflexivity|discriminate Hw]).
      assert (Hnw : forall j, nth_error (upd (phases st) i Holding) j = Some Waiting -> False).
      { intros j Hj; destruct (Nat.eq_dec j i) as [->|Hne].
        - rewrite (nth_upd_same _ _ _ _ Hn) in Hj; discriminate Hj.
        - rewrite nth_upd_other in Hj by exact Hne.
          pose proof (H2 j Hj) as Hin; rewrite Hnil in Hin; destruct Hin. }
      split; [|split; [|split]]; cbn [waiters phases value].
      * intros x Hx; cbn [waiters] in Hx; rewrite Hnil in Hx; destruct Hx.
      * intros j Hj; destruct (Hnw j Hj).
      * exact H3.
      * intros [j Hj]; destruct (Hnw j Hj).
  - (* Resume *)
    destruct (nth_error (phases st) i) as [[]|] eqn:Hn; try discriminate H.
    injection H as <-.
    set (st1 := {| value := value st; phases := phases st;
                   waiters := remove_waiter i (waiters st) |}).
    unfold queued_ok, waiting_queued, not_stranded, some_phase in *.
    unfold queued_ok, waiting_queued, not_stranded, some_phase in *.
    destruct (remove_waiter_nodup i (waiters st) H3) as [N1 N2].
    assert (Q1 : queued_ok st1) by (intros x Hx; exact (H1 x (remove_waiter_in _ _ _ Hx))).
    assert (Q2 : waiting_queued st1).
    { intros j Hj; apply remove_waiter_keep; [exact (H2 j Hj)|].
      intros ->; cbn [phases st1] in Hj; rewrite Hn in Hj; discriminate Hj. }
    destruct (wake_loop_good k st1 Q1 Q2) as (V1 & V2 & Vw & Vg).
    pose proof (wake_loop_outcome k st1 Hk Q1 Q2) as Out.
    set (st2 := wake_loop k st1) in *.
    assert (Hi2 : nth_error (phases st2) i = Some Granted) by exact (Vg i Hn).
    assert (Hni : ~ In i (waiters st2)) by (rewrite Vw; exact N2).
    unfold set_phase, queued_ok, waiting_queued, not_stranded, some_phase;
      split; [|split; [|split]]; cbn [waiters phases value].
    + intros x Hx; rewrite nth_upd_other by (intros ->; contradiction); exact (V1 x Hx).
    + intros j Hj; destruct (Nat.eq_dec j i) as [->|Hne].
      * rewrite (nth_upd_same _ _ _ _ Hi2) in Hj; discriminate Hj.
      * rewrite nth_upd_other in Hj by exact Hne; exact (V2 j Hj).
    + rewrite Vw; exact N1.
    + intros [j Hj]; cbn [phases value] in *.
      destruct (Nat.eq_dec j i) as [->|Hne];
        [rewrite (nth_upd_same _ _ _ _ Hi2) in Hj; discriminate Hj|].
      rewrite nth_upd_other in Hj by exact Hne.
      destruct Out as [O|[O|[j' [Oj1 Oj2]]]]; [left; exact O|destruct (O j Hj)|right].
      exists j'; rewrite nth_upd_other; [exact Oj2|].
      intros ->; cbn [phases st1] in Oj1; rewrite Hn in Oj1; discriminate Oj1.
  - (* Release *)
    destruct (nth_error (phases st) i) as [[]|] eqn:Hn; try discriminate H.
    set (st1 := {| value := value st + 1; phases := upd (phases st) i Finished;
                   waiters := waiters st |}) in H.
    assert (Hni : ~ In i (waiters st))
      by (intros Hin; destruct (H1 i Hin) as [E|E]; rewrite Hn in E; discriminate E).
    assert (Q1 : queued_ok st1).
    { intros x Hx; cbn [phases waiters st1] in *.
      rewrite nth_upd_other by (intros ->; contradiction); exact (H1 x Hx). }
    assert (Q2 : waiting_queued st1).
    { intros j Hj; cbn [phases waiters st1] in *; destruct (Nat.eq_dec j i) as [->|Hne].
      - rewrite (nth_upd_same _ _ _ _ Hn) in Hj; discriminate Hj.
      - rewrite nth_upd_other in Hj by exact Hne; exact (H2 j Hj). }
    destruct (wake_up_next st1) as [st2|] eqn:Hw; injection H as <-.
    + destruct (wake_up_next_good st1 st2 Q1 Q2 Hw) as (V1 & V2 & Vw & [w [_ Hw2]] & _).
      split; [exact V1|split; [exact V2|split; [rewrite Vw; exact H3|]]].
      intros _; right; exists w; exact Hw2.
    + split; [exact Q1|split; [exact Q2|split; [exact H3|]]].
      intros [j Hj]; exfalso.
      unfold wake_up_next in Hw.
      destruct (first_waiting (phases st1) (waiters st1)) eqn:Hf; [discriminate Hw|].
      exact (first_waiting_none _ _ Hf j (Q2 j Hj) Hj).
Qed.

Lemma run_good (acts : list action) (st st' : state) :
  Forall (fun a => match a with Resume _ k => 1 <= k | _ => True end) acts ->
  good st -> run acts st = Some st' -> good st'.
Proof.
  intros Ha; revert st; induction Ha as [|a acts Hk Ha IH]; intros st Hg H; cbn [run] in H.
  - injection H as <-; exact Hg.
  - destruct (step a st) as [s|] eqn:Hs; [|discriminate H].
    exact (IH s (step_good a st s Hk Hg Hs) H).
Qed.

Lemma nth_error_repeat_fresh (n i : nat) (p : phase) :
  nth_error (repeat Fresh n) i = Some p -> p = Fresh.
Proof.
  revert i; induction n as [|n IH]; intros [|i] H; cbn [repeat nth_error] in H;
    try discriminate H; [injection H as <-; reflexivity|exact (IH i H)].
Qed.

Lemma count_phase_pos (p : phase) (l : list phase) (j : nat) :
  nth_error l j = Some p -> 1 <= count_phase p l.
Proof.
  revert j; induction l as [|a l IH]; intros [|j] H; cbn [nth_error count_phase] in *;
    try discriminate H.
  - injection H as ->; destruct p; cbn [phase_eqb]; lia.
  - specialize (IH j H); lia.
Qed.

(** However the row tasks of a batch interleave, the semaphore's counter plus
    the tasks that hold or have been granted a permit always add up to
    [max(1, BATCH_MAX_CONCURRENCY)]: no permit is lost or made up. *)
Theorem batch_semaphore_permits (limit n : nat) (acts : list action) (st : state) :
  run acts (batch_init limit n) = Some st ->
  value st + count_phase Granted (phases st) + count_phase Holding (phases st) = Nat.max 1 limit.
Proof.
  intros H.
  assert (H0 : inv (Nat.max 1 limit) (batch_init limit n)).
  { unfold inv, batch_init; cbn [value phases].
    rewrite !count_repeat_fresh by discriminate; lia. }
  exact (run_inv _ _ _ _ H0 H).
Qed.

(** No row task is left stranded: as long as every woken task, when it
    resumes, runs at least one round of [_wake_up_next] (Python 3.11 and
    3.12 both do), whenever some task waits on the semaphore another task
    holds it or has been granted it, so it will be released and the waiter
    woken. *)
Theorem batch_semaphore_progress (limit n : nat) (acts : list action) (st : state) :
  Forall (fun a => match a with Resume _ k => 1 <= k | _ => True end) acts ->
  run acts (batch_init limit n) = Some st ->
  (exists i, nth_error (phases st) i = Some Waiting) ->
  1 <= count_phase Granted (phases st) + count_phase Holding (phases st).
Proof.
  intros Ha H Hw.
  assert (G0 : good (batch_init limit n)).
  { unfold good, batch_init; split; [|split; [|split]]; cbn [waiters phases value].
    - intros x [].
    - intros i Hi; apply nth_error_repeat_fresh in Hi; discriminate Hi.
    - constructor.
    - intros [i Hi]; apply nth_error_repeat_fresh in Hi; discriminate Hi. }
  destruct (run_good acts _ _ Ha G0 H) as (_ & _ & _ & HP).
  assert (Hinv : inv (Nat.max 1 limit) st).
  { apply (run_inv _ acts (batch_init limit n)); [|exact H].
    unfold inv, batch_init; cbn [value phases].
    rewrite !count_repeat_fresh by discriminate; lia. }
  unfold inv in Hinv.
  destruct (HP Hw) as [Hv|[j Hj]]; [lia|].
  pose proof (count_phase_pos _ _ _ Hj); lia.
Qed.

Lemma batch_semaphore_permits_witness :
  run [Start 0; Start 1; Release 0] (batch_init 1 2)
  = Some {| value := 0; phases := [Finished; Granted]; waiters := [1] |} /\
  0 + count_phase Granted [Finished; Granted] + count_phase Holding [Finished; Granted]
  = Nat.max 1 1.
Proof.
  assert (H : run [Start 0; Start 1; Release 0] (batch_init 1 2)
              = Some {| value := 0; phases := [Finished; Granted]; waiters := [1] |})
    by reflexivity.
  split; [exact H|exact (batch_semaphore_permits 1 2 _ _ H)].
Defined.

Lemma batch_semaphore_progress_witness :
  run [Start 0; Start 1] (batch_init 1 2)
  = Some {| value := 0; phases := [Holding; Waiting]; waiters := [1] |} /\
  1 <= count_phase Granted [Holding; Waiting] + count_phase Holding [Holding; Waiting].
Proof.
  assert (H : run [Start 0; Start 1] (batch_init 1 2)
              = Some {| value := 0; phases := [Holding; Waiting]; waiters := [1] |})
    by reflexivity.
  split; [exact H|].
  apply (batch_semaphore_progress 1 2 [Start 0; Start 1] {| value := 0; phases := [Holding; Waiting]; waiters := [1] |}).
  - repeat constructor.
  - exact H.
  - exists 1; reflexivity.
Defined.

End SemMoreProofs.

(* ------------------------------------------------------------------ *)
Module PipelineMoreProofs.
Import Pipeline HelperFacts.

(** The headline always mentions the job title (compared case-insensitively,
    as the code does): the model's headline is kept only when it contains
    it, the title is prepended otherwise, and both fallbacks start with it. *)
Theorem generate_headline_has_title (job_title years : string) (r : reply) :
  contains (lower job_title) (lower (generate_headline job_title years r)) = true.
Proof.
  unfold generate_headline, try_except.
  destruct r as [text|]; cbv zeta.
  - match goal with
    | |- context [if contains (lower job_title) (lower ?h) then _ else _] =>
        destruct (contains (lower job_title) (lower h)) eqn:E
    end; [exact E|].
    rewrite lower_app; apply contains_app_l.
  - destruct (String.eqb years EmptyString).
    + pose proof (contains_app_l (lower job_title) EmptyString) as H.
      rewrite PostProofs.str_app_nil_r in H; exact H.
    + rewrite lower_app; apply contains_app_l.
Qed.

Lemma traverse_length {A B} (f : A -> option B) (l : list A) (vs : list B) :
  traverse f l = Some vs -> length vs = length l.
Proof.
  revert vs; induction l as [|x l IH]; intros vs H; cbn [traverse] in H.
  - injection H as <-; reflexivity.
  - destruct (f x) as [y|]; [|discriminate H]; cbv beta iota in H.
    destruct (traverse f l) as [ys|] eqn:E; [|discriminate H].
    injection H as <-; cbn [length]; rewrite (IH ys eq_refl); reflexivity.
Qed.

Lemma map_fst_combine {A B} (l : list A) (vs : list B) :
  length vs = length l -> map fst (combine l vs) = l.
Proof.
  revert vs; induction l as [|x l IH]; intros [|v vs] H; cbn in *; try discriminate H;
    [reflexivity|rewrite IH by lia; reflexivity].
Qed.

(** Whatever the model answers (or if it raises, or its answer does not
    parse), [extract_skills_for_ats] returns a dict with exactly the five
    keys [hard_skills], [soft_skills], [keywords], [required_technologies]
    and [preferred_technologies], in that order. *)
Theorem extract_skills_for_ats_keys (json_loads : string -> option json) (r : reply) :
  exists d, extract_skills_for_ats json_loads r = JObj d /\ map fst d = skills_keys.
Proof.
  unfold extract_skills_for_ats, try_except.
  destruct r as [text|]; [|eexists; split; [reflexivity|reflexivity]].
  destruct (json_loads (json_text_loose (strip text))) as [res|]; cbv beta iota;
    [|eexists; split; [reflexivity|reflexivity]].
  destruct (traverse _ skills_keys) as [vs|] eqn:E; cbv beta iota;
    [|eexists; split; [reflexivity|reflexivity]].
  eexists; split; [reflexivity|].
  apply map_fst_combine, (traverse_length _ _ _ E).
Qed.

End PipelineMoreProofs.

(* ------------------------------------------------------------------ *)
Module PostMoreProofs.
Import Verbs Bold Post PostProofs.

Lemma filter_skills_clean (l l' : list json) :
  filter_skills l = Some l' ->
  Forall (fun v => exists s, v = JStr s /\ existsb (String.eqb (lower s)) buzzword_skills = false) l'.
Proof.
  revert l'; induction l as [|v l IH]; intros l' H; cbn [filter_skills] in H.
  - injection H as <-; constructor.
  - destruct v as [| | |s| |]; try discriminate H.
    destruct (filter_skills l) as [r'|]; [|discriminate H]; cbv beta iota in H.
    destruct (existsb (String.eqb (lower s)) buzzword_skills) eqn:E; injection H as <-.
    + exact (IH r' eq_refl).
    + constructor; [exists s; split; [reflexivity|exact E]|exact (IH r' eq_refl)].
Qed.

Lemma debuzz_skills_clean (rd rd' : json) (l : list json) :
  debuzz_skills rd = Some rd' -> py_get "skills" rd' = Some (JArr l) ->
  Forall (fun v => exists s, v = JStr s /\ existsb (String.eqb (lower s)) buzzword_skills = false) l.
Proof.
  unfold debuzz_skills.
  destruct (py_in "skills" rd) as [has|] eqn:Hin; [|discriminate]; cbv beta iota.
  destruct has; cbn [negb].
  - destruct (py_get "skills" rd) as [sk|] eqn:Hg; [|discriminate]; cbv beta iota.
    destruct sk as [| | | |l0|d];
      try (intros H; injection H as <-; rewrite Hg; discriminate).
    + destruct (filter_skills l0) as [l'|] eqn:Hf; [|discriminate]; cbv beta iota.
      destruct rd as [| | | | |dd]; try discriminate.
      intros H; injection H as <-; cbn [py_get]; rewrite lookup_set_same.
      intros H; injection H as <-; exact (filter_skills_clean _ _ Hf).
    + destruct (Verbs.fold_opt _ _ d) as [d'|]; [|discriminate]; cbv beta iota.
      destruct rd as [| | | | |dd]; try discriminate.
      intros H; injection H as <-; cbn [py_get]; rewrite lookup_set_same; discriminate.
  - intros H; injection H as <-.
    destruct rd as [| | | | |dd]; try discriminate.
    cbn [py_in] in Hin; cbn [py_get].
    destruct (lookup "skills" dd); [discriminate Hin|discriminate].
Qed.

(** After [remove_buzzwords], a list of skills holds only strings, none of
    which is a buzzword skill (compared in lower case). *)
Theorem remove_buzzwords_skills_clean (rd rd' : json) (l : list json) :
  remove_buzzwords rd = Some rd' -> py_get "skills" rd' = Some (JArr l) ->
  Forall (fun v => exists s, v = JStr s /\ existsb (String.eqb (lower s)) buzzword_skills = false) l.
Proof.
  unfold remove_buzzwords.
  destruct (guarded_get "summary" rd) as [sv|]; [|discriminate]; cbv beta iota.
  match goal with |- context [match ?m with Some rd1 => _ | None => None end] =>
    destruct m as [rd1|]; [|discriminate]; cbv beta iota end.
  destruct (guarded_get "experience" rd1) as [ev|]; [|discriminate]; cbv beta iota.
  match goal with |- context [match ?m with Some rd2 => _ | None => None end] =>
    destruct m as [rd2|]; [|discriminate]; cbv beta iota end.
  apply debuzz_skills_clean.
Qed.

Lemma remove_buzzwords_skills_clean_witness :
  remove_buzzwords (JObj [("skills", JArr [JStr "Python"; JStr "Team Player"; JStr "SQL"])])
  = Some (JObj [("skills", JArr [JStr "Python"; JStr "SQL"])]) /\
  Forall (fun v => exists s, v = JStr s /\ existsb (String.eqb (lower s)) buzzword_skills = false)
         [JStr "Python"; JStr "SQL"].
Proof.
  assert (H : remove_buzzwords (JObj [("skills", JArr [JStr "Python"; JStr "Team Player"; JStr "SQL"])])
              = Some (JObj [("skills", JArr [JStr "Python"; JStr "SQL"])])) by (vm_compute; reflexivity).
  split; [exact H|exact (remove_buzzwords_skills_clean _ _ _ H eq_refl)].
Defined.

Lemma bold_go_plain (p t : string) (k : nat) :
  count_char "*"%char p = 0 ->
  bold_go (String.length p + k) (p ^^ t) = p ^^ bold_go k t.
Proof.
  induction p as [|c p IH]; intros Hp; [reflexivity|].
  cbn [count_char] in Hp.
  destruct (Ascii.eqb "*"%char c) eqn:Hc; [cbn in Hp; lia|].
  cbn [String.length Nat.add String.append bold_go].
  assert (Hs : starts_with dstar (String c (p ^^ t)) = false)
    by (cbn [dstar starts_with]; rewrite Hc; reflexivity).
  rewrite Hs, IH by (cbn in Hp; lia); reflexivity.
Qed.

Lemma no_star_no_dstar (s : string) : count_char "*"%char s = 0 -> contains dstar s = false.
Proof.
  induction s as [|c s IH]; intros H; [reflexivity|].
  cbn [count_char] in H; rewrite contains_dstar_cons.
  destruct (Ascii.eqb "*"%char c); [cbn in H; lia|].
  cbn [andb orb]; apply IH; cbn in H; lia.
Qed.

Lemma find_close_app (x q : string) :
  count_char "*"%char x = 0 -> count_char nl x = 0 ->
  find_close (x ^^ "**" ^^ q) = Some (x, q).
Proof.
  induction x as [|c x IH]; intros H1 H2; [reflexivity|].
  cbn [count_char] in H1, H2.
  destruct (Ascii.eqb "*"%char c) eqn:Hc; [cbn in H1; lia|].
  destruct (Ascii.eqb nl c) eqn:Hn; [cbn in H2; lia|].
  change (String c x ^^ "**" ^^ q) with (String c (x ^^ "**" ^^ q)); cbn [find_close].
  assert (Hs : starts_with dstar (String c (x ^^ "**" ^^ q)) = false)
    by (cbn [dstar starts_with]; rewrite Hc; reflexivity).
  rewrite Hs, Ascii.eqb_sym, Hn, IH by (cbn in *; lia); reflexivity.
Qed.

(** A bold span written [**text**] between plain text is turned into a
    [<strong>] element and nothing else changes, when no part holds a ['*']
    and the bold text is non-empty and on one line. *)
Theorem bold_sub_roundtrip (p s q : string) :
  count_char "*"%char p = 0 -> count_char "*"%char s = 0 -> count_char "*"%char q = 0 ->
  count_char nl s = 0 -> s <> EmptyString ->
  bold_sub (p ^^ "**" ^^ s ^^ "**" ^^ q) = p ^^ "<strong>" ^^ s ^^ "</strong>" ^^ q.
Proof.
  intros Hp Hs Hq Hn Hne; unfold bold_sub.
  destruct s as [|c1 s1]; [contradiction|].
  replace (S (String.length (p ^^ "**" ^^ String c1 s1 ^^ "**" ^^ q)))
    with (String.length p + S (String.length ("**" ^^ String c1 s1 ^^ "**" ^^ q)))
    by (rewrite (str_length_app p); lia).
  rewrite (bold_go_plain p _ _ Hp); f_equal.
  cbn [count_char] in Hs, Hn.
  destruct (Ascii.eqb "*"%char c1) eqn:Hc; [cbn in Hs; lia|].
  destruct (Ascii.eqb nl c1) eqn:Hcn; [cbn in Hn; lia|].
  change ("**" ^^ String c1 s1 ^^ "**" ^^ q)
    with (String "*" (String "*" (String c1 (s1 ^^ "**" ^^ q)))).
  cbn [bold_go].
  change (starts_with dstar (String "*" (String "*" (String c1 (s1 ^^ "**" ^^ q))))) with true.
  cbn [drop]; rewrite Ascii.eqb_sym, Hcn.
  rewrite find_close_app by (cbn in *; lia).
  rewrite bold_go_id by (apply no_star_no_dstar; exact Hq).
  reflexivity.
Qed.

Lemma bold_sub_roundtrip_witness :
  bold_sub "Led the **payments** team" = "Led the <strong>payments</strong> team".
Proof.
  exact (bold_sub_roundtrip "Led the " "payments" " team" eq_refl eq_refl eq_refl eq_refl
           ltac:(discriminate)).
Defined.

End PostMoreProofs.

(* ------------------------------------------------------------------ *)
(** ** The bold normalization against the pattern's own description *)
Module BoldProofs.
Import Bold BoldSpec PostView PostProofs.

Lemma starts_with_split (t s : string) :
  starts_with t s = true -> s = t ^^ drop (String.length t) s.
Proof.
  revert s; induction t as [|a t IH]; intros s H; [reflexivity|].
  destruct s as [|b s]; [discriminate H|].
  cbn [starts_with] in H; apply andb_true_iff in H as [Ha Ht].
  apply Ascii.eqb_eq in Ha; subst b; cbn; f_equal; exact (IH s Ht).
Qed.

(** [find_close] finds a closing [**] after a text with no newline. *)
Lemma find_close_spec (r x rest : string) :
  find_close r = Some (x, rest) -> r = x ^^ "**" ^^ rest /\ no_newline x = true.
Proof.
  revert x rest; induction r as [|c r IH]; intros x rest H.
  - discriminate H.
  - cbn [find_close] in H.
    destruct (starts_with dstar (String c r)) eqn:Hs.
    + injection H as <- <-; split; [exact (starts_with_split dstar _ Hs)|reflexivity].
    + destruct (Ascii.eqb c nl) eqn:Hc; [discriminate H|].
      destruct (find_close r) as [[x0 rest0]|]; [|discriminate H].
      injection H as <- <-.
      destruct (IH _ _ eq_refl) as [-> Hn].
      split; [reflexivity|]; cbn [no_newline]; rewrite Hc, Hn; reflexivity.
Qed.

(** The lazy search stops at the first [**]. *)
Lemma find_close_shortest (y q : string) :
  (forall y' q', String.length y' < String.length y -> y ^^ "**" ^^ q <> y' ^^ "**" ^^ q') ->
  no_newline y = true -> find_close (y ^^ "**" ^^ q) = Some (y, q).
Proof.
  induction y as [|c y IH]; intros Hs Hn; [reflexivity|].
  cbn [no_newline] in Hn; apply andb_true_iff in Hn as [Hc Hn].
  change (String c y ^^ "**" ^^ q) with (String c (y ^^ "**" ^^ q)).
  cbn [find_close].
  destruct (starts_with dstar (String c (y ^^ "**" ^^ q))) eqn:Hd.
  - exfalso; apply (Hs EmptyString (drop 2 (String c (y ^^ "**" ^^ q))));
      [cbn; lia|exact (starts_with_split dstar _ Hd)].
  - apply negb_true_iff in Hc; rewrite Hc.
    rewrite IH; [reflexivity| |exact Hn].
    intros y' q' Hl He; apply (Hs (String c y') q'); [cbn; lia|exact (f_equal (String c) He)].
Qed.

Lemma bold_go_fuel (k1 k2 : nat) (s : string) :
  String.length s < k1 -> String.length s < k2 -> bold_go k1 s = bold_go k2 s.
Proof.
  revert k2 s; induction k1 as [|k1 IH]; intros k2 s H1 H2; [lia|].
  destruct k2 as [|k2]; [lia|].
  destruct s as [|c r]; [reflexivity|].
  cbn [bold_go].
  assert (Hr : bold_go k1 r = bold_go k2 r) by (apply IH; cbn in H1, H2; lia).
  destruct (starts_with dstar (String c r)) eqn:Hs; [|rewrite Hr; reflexivity].
  pose proof (starts_with_split dstar _ Hs) as Hsplit.
  destruct (drop 2 (String c r)) as [|c1 r1] eqn:Hd; [rewrite Hr; reflexivity|].
  destruct (Ascii.eqb c1 nl); [rewrite Hr; reflexivity|].
  destruct (find_close r1) as [[x rest]|] eqn:Hf; [|rewrite Hr; reflexivity].
  destruct (find_close_spec _ _ _ Hf) as [-> _].
  assert (Hl : String.length (String c r) = 2 + S (String.length x + (2 + String.length rest))).
  { rewrite Hsplit at 1; cbn [String.length dstar String.append]; rewrite Hd.
    cbn [String.length]; rewrite (PostProofs.str_length_app x).
    cbn [String.length String.append]; lia. }
  rewrite (IH k2 rest) by lia; reflexivity.
Qed.

Lemma bold_sub_fuel (k : nat) (s : string) :
  String.length s < k -> bold_go k s = bold_sub s.
Proof. intros H; apply bold_go_fuel; [exact H|unfold bold_sub; lia]. Qed.

Lemma bold_match_at_shift (c : ascii) (r : string) (i : nat) :
  bold_match_at (String c r) (S i) <-> bold_match_at r i.
Proof. reflexivity. Qed.

(** Where no match starts, the character is copied. *)
Lemma bold_sub_copy (c : ascii) (r : string) :
  ~ bold_match_at (String c r) 0 -> bold_sub (String c r) = String c (bold_sub r).
Proof.
  intros Hno; unfold bold_sub at 1; cbn [String.length].
  remember (S (String.length r)) as k eqn:Ek; cbn [bold_go].
  assert (Hr : bold_go k r = bold_sub r) by (subst k; reflexivity).
  destruct (starts_with dstar (String c r)) eqn:Hs; [|rewrite Hr; reflexivity].
  pose proof (starts_with_split dstar _ Hs) as Hsplit.
  destruct (drop 2 (String c r)) as [|c1 r1] eqn:Hd; [rewrite Hr; reflexivity|].
  destruct (Ascii.eqb c1 nl) eqn:Hc; [rewrite Hr; reflexivity|].
  destruct (find_close r1) as [[x rest]|] eqn:Hf; [|rewrite Hr; reflexivity].
  exfalso; apply Hno.
  destruct (find_close_spec _ _ _ Hf) as [Hr1 Hn].
  exists (String c1 x), rest; split; [|split; [discriminate|]].
  - cbn [drop]; rewrite Hsplit at 1; cbn [dstar String.length]; rewrite Hd, Hr1.
    reflexivity.
  - cbn [no_newline]; rewrite Hc, Hn; reflexivity.
Qed.

(** A match at the start is replaced, and the scan goes on after it. *)
Lemma bold_sub_hit (x q : string) :
  x <> EmptyString -> no_newline x = true -> shortest_span x q ->
  bold_sub ("**" ^^ x ^^ "**" ^^ q) = "<strong>" ^^ x ^^ "</strong>" ^^ bold_sub q.
Proof.
  intros Hne Hn Hs.
  destruct x as [|c1 y]; [congruence|].
  cbn [no_newline] in Hn; apply andb_true_iff in Hn as [Hc Hn].
  apply negb_true_iff in Hc.
  assert (Hf : find_close (y ^^ "**" ^^ q) = Some (y, q)).
  { apply find_close_shortest; [|exact Hn].
    intros y' q' Hl He; apply (Hs (String c1 y') q'); [discriminate|cbn; lia|].
    exact (f_equal (String c1) He). }
  unfold bold_sub at 1.
  change ("**" ^^ String c1 y ^^ "**" ^^ q)
    with (String "*" (String "*" (String c1 (y ^^ "**" ^^ q)))).
  remember (String.length (String "*" (String "*" (String c1 (y ^^ "**" ^^ q))))) as k eqn:Ek.
  cbn [bold_go].
  change (starts_with dstar (String "*" (String "*" (String c1 (y ^^ "**" ^^ q))))) with true.
  cbv iota beta.
  change (drop 2 (String "*" (String "*" (String c1 (y ^^ "**" ^^ q)))))
    with (String c1 (y ^^ "**" ^^ q)).
  cbv iota beta.
  rewrite Hc, Hf, bold_sub_fuel; [reflexivity|].
  rewrite Ek; cbn [String.length]; rewrite (PostProofs.str_length_app y).
  cbn [String.length String.append]; lia.
Qed.

Lemma bold_sub_prefix (p t : string) :
  (forall i, i < String.length p -> ~ bold_match_at (p ^^ t) i) ->
  bold_sub (p ^^ t) = p ^^ bold_sub t.
Proof.
  induction p as [|c p IH]; intros H; [reflexivity|].
  cbn [String.append]; rewrite bold_sub_copy.
  - f_equal; apply IH; intros i Hi; rewrite <- bold_match_at_shift with (c := c).
    apply H; cbn; lia.
  - apply H; cbn; lia.
Qed.

Lemma bold_sub_none (s : string) :
  (forall i, ~ bold_match_at s i) -> bold_sub s = s.
Proof.
  induction s as [|c r IH]; intros H; [reflexivity|].
  rewrite bold_sub_copy by apply H; f_equal; apply IH.
  intros i; rewrite <- bold_match_at_shift with (c := c); apply H.
Qed.

Lemma convert_shape_strings (v : json) :
  json_shape (convert_markdown_bold_to_html v) = json_shape v /\
  json_strings (convert_markdown_bold_to_html v) = map bold_sub (json_strings v).
Proof.
  induction v as [| b | z | s | l IHl | d IHd] using json_ind';
    cbn [convert_markdown_bold_to_html json_shape json_strings]; try (split; reflexivity).
  - induction IHl as [|y l [Hy1 Hy2] _ [IH1 IH2]]; [split; reflexivity|].
    injection IH1 as IH1; cbn [map flat_map json_shape]; split.
    + rewrite Hy1, IH1; reflexivity.
    + rewrite map_app, Hy2, IH2; reflexivity.
  - induction IHd as [|[k y] d [Hy1 Hy2] _ [IH1 IH2]]; [split; reflexivity|].
    injection IH1 as IH1; cbn [map flat_map fst snd json_shape] in Hy1, Hy2 |- *; split.
    + rewrite Hy1, IH1; reflexivity.
    + rewrite map_app, Hy2, IH2; reflexivity.
Qed.

Lemma convert_no_new_stars (v : json) :
  (any_string (contains dstar) (convert_markdown_bold_to_html v) = true ->
   any_string (contains dstar) v = true) /\
  (any_string (contains dstar) v = false -> convert_markdown_bold_to_html v = v).
Proof.
  induction v as [| b | z | s | l IHl | d IHd] using json_ind';
    cbn [convert_markdown_bold_to_html any_string];
    try (split; [exact (fun H => H) | reflexivity]).
  - unfold bold_sub.
    split; [apply bold_go_no_new | intros H; rewrite bold_go_id by exact H; reflexivity].
  - split.
    + intros H; apply existsb_exists in H as [x [Hx Hax]].
      apply in_map_iff in Hx as [y [<- Hy]].
      apply existsb_exists; exists y; split; [exact Hy|].
      rewrite Forall_forall in IHl; exact (proj1 (IHl y Hy) Hax).
    + intros H; f_equal.
      induction IHl as [|y l Hy _ IH]; [reflexivity|].
      cbn [existsb map] in H |- *; apply orb_false_iff in H as [H1 H2].
      rewrite (proj2 Hy H1), (IH H2); reflexivity.
  - split.
    + intros H; apply existsb_exists in H as [x [Hx Hax]].
      apply in_map_iff in Hx as [y [<- Hy]].
      apply existsb_exists; exists y; split; [exact Hy|].
      rewrite Forall_forall in IHd; exact (proj1 (IHd y Hy) Hax).
    + intros H; f_equal.
      induction IHd as [|[k y] d Hy _ IH]; [reflexivity|].
      cbn [existsb map fst snd] in H, Hy |- *; apply orb_false_iff in H as [H1 H2].
      rewrite (proj2 Hy H1), (IH H2); reflexivity.
Qed.

(** C5 (amended): [convert_markdown_bold_to_html] rewrites every string
    value and nothing else: keys, nesting and non-string values are kept,
    and each string [s] becomes [bold_sub s].  On a string, scanning left to
    right: before the first place where [**X**] matches (X non-empty, no
    newline) the text is copied, the match with the shortest X becomes
    [<strong>X</strong>], and the scan goes on after it; a string where the
    pattern matches nowhere (so any [**] without a closing partner on its
    line) is left as it is.  No [**] is introduced: a string value of the
    result contains [**] only if one of the input does, and a document
    without [**] comes back unchanged. *)
Theorem C5_bold_normalization (v : json) :
  (json_shape (convert_markdown_bold_to_html v) = json_shape v /\
   json_strings (convert_markdown_bold_to_html v) = map bold_sub (json_strings v)) /\
  (forall p x q,
     (forall i, i < String.length p -> ~ bold_match_at (p ^^ "**" ^^ x ^^ "**" ^^ q) i) ->
     x <> EmptyString -> no_newline x = true -> shortest_span x q ->
     bold_sub (p ^^ "**" ^^ x ^^ "**" ^^ q) =
     p ^^ "<strong>" ^^ x ^^ "</strong>" ^^ bold_sub q) /\
  (forall s, (forall i, ~ bold_match_at s i) -> bold_sub s = s) /\
  (any_string (contains dstar) (convert_markdown_bold_to_html v) = true ->
   any_string (contains dstar) v = true) /\
  (any_string (contains dstar) v = false -> convert_markdown_bold_to_html v = v).
Proof.
  split; [exact (convert_shape_strings v)|].
  split; [|split; [exact bold_sub_none|exact (convert_no_new_stars v)]].
  intros p x q Hl Hne Hn Hs.
  rewrite bold_sub_prefix by exact Hl.
  rewrite bold_sub_hit by assumption; reflexivity.
Qed.

(** A summary with one bold span and a stray [**] after it. *)
Lemma C5_bold_normalization_witness :
  bold_sub ("Cut " ^^ "**" ^^ "costs" ^^ "**" ^^ " by 40%**") =
  "Cut " ^^ "<strong>" ^^ "costs" ^^ "</strong>" ^^ bold_sub " by 40%**" /\
  bold_sub " by 40%**" = " by 40%**".
Proof.
  split.
  - apply (proj1 (proj2 (C5_bold_normalization (JStr "Cut **costs** by 40%**")))).
    + intros i Hi [x [rest [He _]]].
      do 4 (destruct i as [|i]; [cbn in He; discriminate He|]); cbn in Hi; lia.
    + discriminate.
    + reflexivity.
    + intros x' q' Hne Hl He.
      destruct x' as [|a x']; [congruence|]; cbn in He; injection He as _ He.
      do 4 (destruct x' as [|? x']; cbn in He;
            [discriminate He|injection He as _ He]).
      cbn in Hl; lia.
  - apply (proj1 (proj2 (proj2 (C5_bold_normalization (JStr " by 40%**"))))).
    intros i [x [rest [He [Hne _]]]].
    do 7 (destruct i as [|i]; [cbn in He; discriminate He|]).
    destruct i as [|i]; cbn in He.
    + injection He as He; destruct x as [|a x]; [congruence|discriminate He].
    + destruct i as [|i]; cbn in He; [injection He as He; discriminate He|].
      destruct i; discriminate He.
Defined.

End BoldProofs.
